(** * Order processing API: data model, handlers and their properties

    A shallow embedding of [main.py]: the [orders] table, the pydantic
    request and response models, the role gate, the three route handlers,
    the structured log formatter and the background notification. *)

From Stdlib Require Import Ascii.
From stdpp Require Import gmap strings list fin_maps pretty.

Local Open Scope string_scope.
Local Open Scope list_scope.
Local Open Scope Z_scope.

(** ** Data model *)

(** [class OrderStatus(str, Enum)]. *)
Inductive OrderStatus : Type :=
  | created
  | processing
  | completed
  | cancelled.

#[global] Instance OrderStatus_eq_dec : EqDecision OrderStatus.
Proof. solve_decision. Defined.

(** The value of an enum member, [OrderStatus.x.value]. *)
Definition status_value (st : OrderStatus) : string :=
  match st with
  | created => "created"
  | processing => "processing"
  | completed => "completed"
  | cancelled => "cancelled"
  end.

(** Lookup of a member by value, [OrderStatus(s)]; [None] where Python
    raises [ValueError]. *)
Definition status_of_value (s : string) : option OrderStatus :=
  if decide (s = "created") then Some created
  else if decide (s = "processing") then Some processing
  else if decide (s = "completed") then Some completed
  else if decide (s = "cancelled") then Some cancelled
  else None.

(** [class Order(Base)]: a row of the [orders] table.  [id] is the
    integer primary key; it is a mathematical integer here, the 64-bit
    range of the storage engine is not represented. *)
Record Order : Type := mkOrder {
  id : Z;
  customer_email : string;
  item : string;
  status : OrderStatus
}.

#[global] Instance Order_eq_dec : EqDecision Order.
Proof. solve_decision. Defined.

(** Decoded JSON, as [json.loads] hands it to the validation layer: an
    object is a dictionary, so a key has one value.  Numbers are the
    integer ones. *)
#[warnings="-register-all"]
Inductive Json : Type :=
  | JNull
  | JBool (b : bool)
  | JNum (n : Z)
  | JStr (s : string)
  | JArr (l : list Json)
  | JObj (m : gmap string Json).

(** The pydantic models of the request and response bodies.  Their field
    names repeat those of [Order], so each lives in its own name space. *)
Module OrderCreate.
Record t : Type := mk { customer_email : string; item : string }.
End OrderCreate.

Module OrderUpdate.
Record t : Type := mk { status : OrderStatus }.
End OrderUpdate.

Module OrderOut.
Record t : Type := mk {
  id : Z;
  customer_email : string;
  item : string;
  status : OrderStatus
}.
End OrderOut.

(** The location of a validation error, such as
    [["body"; "customer_email"]]. *)
Abbreviation Loc := (list string).

(** What a handler or the framework may raise. *)
Inductive Exception : Type :=
  | HTTPException (status_code : Z) (detail : string)
  | RequestValidationError (errors : list Loc)
  | ResponseValidationError.

(** The body of a response: the order representation, the error envelope
    [{"detail": message}], the list of field errors of a rejected payload,
    or the plain text of an internal server error. *)
Inductive Content : Type :=
  | COrder (o : OrderOut.t)
  | CDetail (detail : string)
  | CErrors (errors : list Loc)
  | CText (text : string).

Record Response : Type := mkResponse {
  status_code : Z;
  content : Content
}.

(** Request headers as the server passes them on: name and value pairs in
    arrival order, names in lower case. *)
Abbreviation Headers := (list (string * string)).

Inductive Route : Type :=
  | POST_orders
  | PUT_orders_id (order_id : Z)
  | GET_orders_id (order_id : Z).

Record Request : Type := mkRequest {
  route : Route;
  headers : Headers;
  body : Json
}.



(** ** Python values that reach the log *)

Inductive PyVal : Type :=
  | PStr (s : string)
  | PInt (n : Z)
  | PEnum (st : OrderStatus).

#[global] Instance PyVal_eq_dec : EqDecision PyVal.
Proof. solve_decision. Defined.

(** A dictionary in insertion order. *)
Abbreviation PyDict := (list (string * PyVal)).

Definition dict_get {V : Type} (k : string) (d : list (string * V)) : option V :=
  snd <$> List.find (λ kv, bool_decide (kv.1 = k)) d.

(** [logging.LogRecord]: the level name, the message and the attributes
    that [extra=] added. *)
Record LogRecord : Type := mkLogRecord {
  levelname : string;
  msg : string;
  extra : PyDict
}.

Definition getMessage (record : LogRecord) : string := msg record.

(** [getattr(record, name, None)] for an attribute that only [extra=] can
    have set. *)
Definition getattr (record : LogRecord) (name : string) : option PyVal :=
  dict_get name (extra record).

(** A call queued on [BackgroundTasks]; the only function ever queued is
    [mock_send_email], with its three arguments. *)
Inductive Task : Type :=
  | send_email_task (email : string) (order_id : Z) (st : OrderStatus).

#[global] Instance Task_eq_dec : EqDecision Task.
Proof. solve_decision. Defined.

(** ** Effects

    What a request does besides answering, in the order it happens. *)
Inductive Event : Type :=
  | Committed (o : Order)
  | Logged (record : LogRecord)
  | Scheduled (t : Task)
  | Responded (r : Response)
  | Started (t : Task).

(** The [orders] table, by primary key. *)
Abbreviation Store := (gmap Z Order).

(** A computation against the session that [get_db] opens for a request
    and closes after it: it reads and writes the table, appends to the
    trace of events and returns or raises. *)
Definition M (A : Type) : Type := Store → Store * list Event * (Exception + A).

#[global] Instance M_ret : MRet M := λ A x s, (s, [], inr x).

#[global] Instance M_bind : MBind M := λ A B f m s,
  match m s with
  | (s1, ev1, inl exc) => (s1, ev1, inl exc)
  | (s1, ev1, inr x) =>
      match f x s1 with
      | (s2, ev2, r) => (s2, ev1 ++ ev2, r)
      end
  end.

Definition raise {A : Type} (exc : Exception) : M A := λ s, (s, [], inl exc).

Definition emit (e : Event) : M unit := λ s, (s, [e], inr tt).

(** ** The table *)

(** The largest primary key in use, if any. *)
Definition max_id (s : Store) : option Z :=
  map_fold (λ k _ acc, Some (from_option (Z.max k) k acc)) None s.

(** The key the storage engine gives to an inserted row: an
    [INTEGER PRIMARY KEY] column takes one more than the largest key in
    use, and 1 in an empty table.  This is the rule below the largest
    64-bit key, 9223372036854775807; with that key in use the engine
    tries unused keys at random, which has no counterpart here. *)
Definition next_id (s : Store) : Z :=
  match max_id s with
  | Some m => m + 1
  | None => 1
  end.

(** [db.query(Order).filter(Order.id == order_id).first()], for an
    [order_id] that the database driver can bind, one in the signed 64-bit
    range.  For any other the driver raises [OverflowError]; that path has
    no counterpart here. *)
Definition query_first (order_id : Z) : M (option Order) :=
  λ s, (s, [], inr (s !! order_id)).

(** [db.add(order); db.commit(); db.refresh(order)] for a fresh
    [Order(customer_email=..., item=...)]: the insert assigns the key and
    the column default [OrderStatus.created], and the refresh loads both
    into the object. *)
Definition add_commit_refresh_new (email item_ : string) : M Order :=
  λ s, let order := mkOrder (next_id s) email item_ created in
       (<[id order := order]> s, [Committed order], inr order).

(** [db.add(order); db.commit(); db.refresh(order)] for an object loaded
    from the table and changed since: its row is rewritten. *)
Definition add_commit_refresh (order : Order) : M Order :=
  λ s, (<[id order := order]> s, [Committed order], inr order).

(** [order.status = value]. *)
Definition set_status (order : Order) (value : OrderStatus) : Order :=
  mkOrder (id order) (customer_email order) (item order) value.

(** ** Headers *)

Definition ascii_lower (c : ascii) : ascii :=
  let n := nat_of_ascii c in
  if ((65 <=? n) && (n <=? 90))%nat then ascii_of_nat (n + 32) else c.

(** [str.lower] on the ASCII letters. *)
Fixpoint lower (s : string) : string :=
  match s with
  | EmptyString => EmptyString
  | String c s' => String (ascii_lower c) (lower s')
  end.

(** [request.headers.get(key)]: the value of the first header whose name
    is the key in lower case, [None] without one. *)
Definition headers_get (key : string) (h : Headers) : option string :=
  dict_get (lower key) h.

(** ** Logging *)

(** The dictionary [log_record] that [JsonFormatter.format] builds. *)
Definition log_record_dict (record : LogRecord) : list (string * option PyVal) :=
  [ ("level", Some (PStr (levelname record)));
    ("message", Some (PStr (getMessage record)));
    ("event", getattr record "event");
    ("order_id", getattr record "order_id");
    ("user", getattr record "user") ].

(** [{k: v for k, v in d.items() if v is not None}]. *)
Definition remove_none (d : list (string * option PyVal)) : PyDict :=
  omap (λ kv, pair kv.1 <$> kv.2) d.

(** The fields of the line written for a record. *)
Definition log_fields (record : LogRecord) : PyDict :=
  remove_none (log_record_dict record).

(** [logger.info(msg, extra=extra)]: the logger has the level INFO and one
    handler, so the record is emitted once. *)
Definition logger_info (msg_ : string) (extra_ : PyDict) : M unit :=
  emit (Logged (mkLogRecord "INFO" msg_ extra_)).

(** [background_tasks.add_task(mock_send_email, ...)]. *)
Definition add_task (t : Task) : M unit := emit (Scheduled t).

(** The tasks queued in a trace, in queueing order. *)
Definition scheduled (ev : list Event) : list Task :=
  omap (λ e, match e with Scheduled t => Some t | _ => None end) ev.

(** The tasks whose execution began in a trace. *)
Definition dispatched (ev : list Event) : list Task :=
  omap (λ e, match e with Started t => Some t | _ => None end) ev.

(** The records logged in a trace. *)
Definition logged (ev : list Event) : list LogRecord :=
  omap (λ e, match e with Logged r => Some r | _ => None end) ev.

(** ** Exception handlers *)

(** [custom_http_exception_handler]. *)
Definition custom_http_exception_handler (exc_status_code : Z) (exc_detail : string)
    : Response :=
  mkResponse exc_status_code (CDetail exc_detail).

(** The response to a raised exception: the handler above for
    [HTTPException], the framework's own for the validation errors. *)
Definition exception_response (exc : Exception) : Response :=
  match exc with
  | HTTPException c d => custom_http_exception_handler c d
  | RequestValidationError errs => mkResponse 422 (CErrors errs)
  | ResponseValidationError => mkResponse 500 (CText "Internal Server Error")
  end.

(** ** RBAC dependency *)

Definition staff_required (request : Request) : M string :=
  match headers_get "X-User-Role" (headers request) with
  | Some role =>
      if decide (role ≠ "staff")
      then raise (HTTPException 403 "Staff privileges required.")
      else mret role
  | None => raise (HTTPException 403 "Staff privileges required.")
  end.

(** ** Stand-ins for the two library functions, for the examples

    The service below takes address validation and Python's [str] as
    parameters.  These two functions are what the worked examples put in
    their place. *)

(** The text before and after the first [@]. *)
Fixpoint split_at (s : string) : option (string * string) :=
  match s with
  | EmptyString => None
  | String c s' =>
      if Ascii.eqb c "@" then Some (EmptyString, s')
      else match split_at s' with
           | Some (l, d) => Some (String c l, d)
           | None => None
           end
  end.

Fixpoint has_at (s : string) : bool :=
  match s with
  | EmptyString => false
  | String c s' => Ascii.eqb c "@" || has_at s'
  end.

Definition nonempty (s : string) : bool :=
  match s with
  | EmptyString => false
  | String _ _ => true
  end.

(** An address check that accepts [local@domain] with both parts present
    and a single [@], and puts the domain in lower case. *)
Definition example_validate_email (s : string) : option string :=
  match split_at s with
  | Some (l, d) =>
      if nonempty l && nonempty d && negb (has_at d)
      then Some (String.append l (String "@" (lower d)))
      else None
  | None => None
  end.

Fixpoint has_char (c : ascii) (s : string) : bool :=
  match s with
  | EmptyString => false
  | String c' s' => Ascii.eqb c' c || has_char c s'
  end.

(** The quote Python puts around a string: the double quote when the
    string holds a single quote and no double quote, else the single
    quote. *)
Definition example_quote (s : string) : string :=
  if has_char "'" s && negb (has_char (ascii_of_nat 34) s)
  then String (ascii_of_nat 34) EmptyString
  else "'".

Definition example_repr (v : PyVal) : string :=
  match v with
  | PStr s => String.append (example_quote s) (String.append s (example_quote s))
  | PInt n => pretty n
  | PEnum st =>
      String.append "<OrderStatus."
        (String.append (status_value st)
           (String.append ": '" (String.append (status_value st) "'>")))
  end.

Fixpoint example_items (d : PyDict) : string :=
  match d with
  | [] => ""
  | (k, v) :: d' =>
      String.append "'"
        (String.append k
           (String.append "': "
              (String.append (example_repr v)
                 (match d' with
                  | [] => ""
                  | _ => String.append ", " (example_items d')
                  end))))
  end.

(** A dictionary printed the way Python prints it when its keys and
    strings are plain text that needs no escape. *)
Definition example_str (d : PyDict) : string :=
  String.append "{" (String.append (example_items d) "}").

(** The data of the worked examples. *)
Definition example_staff : Headers := [("x-user-role", "staff")].

Definition example_create_payload : gmap string Json :=
  {[ "customer_email" := JStr "a@B.com"; "item" := JStr "Widget" ]}.

Definition example_update_payload : gmap string Json :=
  {[ "status" := JStr "processing" ]}.

Definition example_order : Order := mkOrder 1 "a@b.com" "Widget" created.

Definition example_store : Store := {[ 1 := example_order ]}.

Definition example_order2 : Order := mkOrder 2 "c@d.org" "Lamp" processing.

Definition example_store2 : Store := {[ 1 := example_order; 2 := example_order2 ]}.

(** A table with a row that was not written through the service: its
    address has no [@]. *)
Definition example_foreign_store : Store :=
  {[ 7 := mkOrder 7 "nobody" "Lamp" created ]}.

Definition example_create_request : Request :=
  mkRequest POST_orders example_staff (JObj example_create_payload).

Definition example_update_request (k : Z) (st : OrderStatus) : Request :=
  mkRequest (PUT_orders_id k) example_staff
    (JObj {[ "status" := JStr (status_value st) ]}).

Definition example_get_request (k : Z) : Request :=
  mkRequest (GET_orders_id k) [] JNull.

Section Service.

(** [EmailStr] validation of a string, from the email-validator library:
    the normalised address, or [None] for a string that is not an
    address. *)
Variable validate_email : string → option string.

(** Python's [str] on a dictionary. *)
Variable py_str : PyDict → string.

(** ** Validation layer *)

(** The field [customer_email: EmailStr] of a create payload. *)
Definition validate_customer_email (m : gmap string Json) : Loc + string :=
  match m !! "customer_email" with
  | Some (JStr s) =>
      match validate_email s with
      | Some e => inr e
      | None => inl ["body"; "customer_email"]
      end
  | _ => inl ["body"; "customer_email"]
  end.

(** The field [item: constr(min_length=1, max_length=100)]; a value that
    is not a string is not converted to one. *)
Definition validate_item (m : gmap string Json) : Loc + string :=
  match m !! "item" with
  | Some (JStr s) =>
      if bool_decide (1 ≤ String.length s ≤ 100)%nat then inr s
      else inl ["body"; "item"]
  | _ => inl ["body"; "item"]
  end.

Definition errors_of {A : Type} (r : Loc + A) : list Loc :=
  match r with
  | inl e => [e]
  | inr _ => []
  end.

(** [OrderCreate] from the request body: every field is checked, the
    errors are gathered in field order, other keys are not looked at. *)
Definition OrderCreate_validate (body_ : Json) : list Loc + OrderCreate.t :=
  match body_ with
  | JObj m =>
      match validate_customer_email m, validate_item m with
      | inr e, inr i => inr (OrderCreate.mk e i)
      | re, ri => inl (errors_of re ++ errors_of ri)
      end
  | _ => inl [["body"]]
  end.

(** [OrderUpdate] from the request body: [status] is an enum member
    looked up by value. *)
Definition OrderUpdate_validate (body_ : Json) : list Loc + OrderUpdate.t :=
  match body_ with
  | JObj m =>
      match m !! "status" with
      | Some (JStr s) =>
          match status_of_value s with
          | Some st => inr (OrderUpdate.mk st)
          | None => inl [["body"; "status"]]
          end
      | _ => inl [["body"; "status"]]
      end
  | _ => inl [["body"]]
  end.

(** The body parameter of a route: a rejected body raises. *)
Definition request_body {A : Type} (validate : Json → list Loc + A)
    (request : Request) : M A :=
  match validate (body request) with
  | inl errs => raise (RequestValidationError errs)
  | inr v => mret v
  end.

(** [OrderOut] read from the attributes of an [Order] ([orm_mode]);
    [customer_email] goes through [EmailStr] again. *)
Definition OrderOut_from_orm (order : Order) : option OrderOut.t :=
  e ← validate_email (customer_email order);
  Some (OrderOut.mk (id order) e (item order) (status order)).

(** [response_model=OrderOut] applied to what the handler returned. *)
Definition serialize_response (order : Order) : M OrderOut.t :=
  match OrderOut_from_orm order with
  | Some out => mret out
  | None => raise ResponseValidationError
  end.

(** ** Notification *)

Definition mock_send_email (email : string) (order_id : Z) (status_ : OrderStatus)
    : M unit :=
  let log_data :=
    [ ("event", PStr "notification_sent");
      ("order_id", PInt order_id);
      ("email", PStr email);
      ("status", PEnum status_) ] in
  logger_info (py_str log_data) [].

(** ** Route handlers *)

Definition create_order (order_in : OrderCreate.t) (user : string) : M Order :=
  order ← add_commit_refresh_new (OrderCreate.customer_email order_in)
                                 (OrderCreate.item order_in);
  logger_info "" [ ("event", PStr "order_created");
                   ("order_id", PInt (id order));
                   ("user", PStr user) ];;
  mret order.

Definition update_order (order_id : Z) (update : OrderUpdate.t) (user : string)
    : M Order :=
  found ← query_first order_id;
  match found with
  | None => raise (HTTPException 404 "Order not found.")
  | Some order =>
      let order := set_status order (OrderUpdate.status update) in
      order ← add_commit_refresh order;
      logger_info "" [ ("event", PStr "order_updated");
                       ("order_id", PInt (id order));
                       ("user", PStr user) ];;
      add_task (send_email_task (customer_email order) (id order) (status order));;
      mret order
  end.

Definition get_order (order_id : Z) : M Order :=
  found ← query_first order_id;
  match found with
  | None => raise (HTTPException 404 "Order not found.")
  | Some order => mret order
  end.

(** ** The application *)

(** A route with its parameters: the [Depends] are resolved first, then
    the body is validated, then the handler runs and its result is
    serialised with the route's status code. *)
Definition endpoint (request : Request) : M Response :=
  match route request with
  | POST_orders =>
      user ← staff_required request;
      order_in ← request_body OrderCreate_validate request;
      order ← create_order order_in user;
      out ← serialize_response order;
      mret (mkResponse 201 (COrder out))
  | PUT_orders_id order_id =>
      user ← staff_required request;
      update ← request_body OrderUpdate_validate request;
      order ← update_order order_id update user;
      out ← serialize_response order;
      mret (mkResponse 200 (COrder out))
  | GET_orders_id order_id =>
      order ← get_order order_id;
      out ← serialize_response order;
      mret (mkResponse 200 (COrder out))
  end.

(** The queued tasks run one after the other; a task that raises ends
    the run. *)
Fixpoint run_tasks (call : Task → M unit) (ts : list Task) : M unit :=
  match ts with
  | [] => mret tt
  | t :: ts' => emit (Started t);; call t;; run_tasks call ts'
  end.

(** One request: the endpoint produces a response or raises, a raised
    exception is turned into its response, the response is sent, and
    after a response of the endpoint itself the queued tasks are run by
    [call].  What the tasks return or raise goes nowhere. *)
Definition serve (call : Task → M unit) (request : Request) (s : Store)
    : Store * list Event * Response :=
  match endpoint request s with
  | (s1, ev1, inl exc) =>
      let resp := exception_response exc in
      (s1, ev1 ++ [Responded resp], resp)
  | (s1, ev1, inr resp) =>
      match run_tasks call (scheduled ev1) s1 with
      | (s2, ev2, _) => (s2, ev1 ++ Responded resp :: ev2, resp)
      end
  end.

(** The function behind a queued task. *)
Definition call_task (t : Task) : M unit :=
  match t with
  | send_email_task email order_id st => mock_send_email email order_id st
  end.

Definition app (request : Request) (s : Store) : Store * list Event * Response :=
  serve call_task request s.

(** The table after a sequence of requests. *)
Fixpoint run (requests : list Request) (s : Store) : Store :=
  match requests with
  | [] => s
  | request :: rest => run rest (app request s).1.1
  end.

(** ** Vocabulary of the statements *)

(** The request carries the role claim [staff]. *)
Definition is_staff (h : Headers) : Prop :=
  headers_get "X-User-Role" h = Some "staff".

(** The routes that write. *)
Definition mutating (r : Route) : bool :=
  match r with
  | POST_orders | PUT_orders_id _ => true
  | GET_orders_id _ => false
  end.


(** An order id in the signed 64-bit range, the ids that the database
    driver accepts in a query. *)
Definition int64 (k : Z) : Prop := - 2 ^ 63 ≤ k < 2 ^ 63.

(** A table as the service leaves it: a row sits under its own key and
    its address is one that validation returns unchanged. *)
Definition store_ok (s : Store) : Prop :=
  ∀ k o, s !! k = Some o →
    id o = k ∧ validate_email (customer_email o) = Some (customer_email o).

(** Two states of an order that differ in the status at most. *)
Definition same_order (o o' : Order) : Prop :=
  id o' = id o ∧ customer_email o' = customer_email o ∧ item o' = item o.

(** The ways one request can change the table. *)
Inductive store_step (s : Store) : Store → Prop :=
  | step_none : store_step s s
  | step_insert (e0 e it : string) :
      validate_email e0 = Some e →
      store_step s (<[next_id s := mkOrder (next_id s) e it created]> s)
  | step_update (k : Z) (o : Order) (st : OrderStatus) :
      s !! k = Some o →
      store_step s (<[id o := set_status o st]> s).

Definition forbidden : Response :=
  mkResponse 403 (CDetail "Staff privileges required.").

Definition not_found : Response :=
  mkResponse 404 (CDetail "Order not found.").

Definition unprocessable (errs : list Loc) : Response :=
  mkResponse 422 (CErrors errs).

Definition server_error : Response :=
  mkResponse 500 (CText "Internal Server Error").

(** The order representation of a row, field by field. *)
Definition order_out (o : Order) : OrderOut.t :=
  OrderOut.mk (id o) (customer_email o) (item o) (status o).

(** The audit record of a lifecycle event. *)
Definition audit_record (event : string) (order_id : Z) (user : string) : LogRecord :=
  mkLogRecord "INFO" ""
    [ ("event", PStr event); ("order_id", PInt order_id); ("user", PStr user) ].

(** The record that [mock_send_email] logs. *)
Definition notification_record (email : string) (order_id : Z) (st : OrderStatus)
    : LogRecord :=
  mkLogRecord "INFO"
    (py_str [ ("event", PStr "notification_sent"); ("order_id", PInt order_id);
              ("email", PStr email); ("status", PEnum st) ])
    [].

(** The records of a list whose [event] attribute is the given one. *)
Definition with_event (event : string) (records : list LogRecord)
    : list LogRecord :=
  filter (λ r, getattr r "event" = Some (PStr event)) records.

(** The rows committed in a trace. *)
Definition committed (ev : list Event) : list Order :=
  omap (λ e, match e with Committed o => Some o | _ => None end) ev.

(** ** Properties *)

(** Validation returns addresses in a form it accepts and leaves as it
    is. *)
Hypothesis validate_email_stable :
  ∀ e e', validate_email e = Some e' → validate_email e' = Some e'.

#[local] Instance is_staff_dec (h : Headers) : Decision (is_staff h).
Proof. unfold is_staff. apply _. Defined.

(** *** The monad, run *)

Lemma bind_run {A B : Type} (m : M A) (f : A → M B) (s : Store) :
  (m ≫= f) s =
  match m s with
  | (s1, ev1, inl exc) => (s1, ev1, inl exc)
  | (s1, ev1, inr x) =>
      match f x s1 with
      | (s2, ev2, r) => (s2, ev1 ++ ev2, r)
      end
  end.
Proof. reflexivity. Qed.

Lemma staff_required_run (request : Request) (s : Store) :
  staff_required request s =
  if decide (is_staff (headers request)) then (s, [], inr "staff")
  else (s, [], inl (HTTPException 403 "Staff privileges required.")).
Proof.
  unfold staff_required.
  destruct (decide (is_staff (headers request))) as [Hs|Hs]; unfold is_staff in Hs.
  - rewrite Hs. by destruct (decide ("staff" ≠ "staff")).
  - destruct (headers_get "X-User-Role" (headers request)) as [role|]; [|done].
    destruct (decide (role ≠ "staff")) as [Hne|Heq]; [done|].
    exfalso. apply Hs. f_equal. by apply dec_stable.
Qed.

Lemma serialize_response_run (order : Order) (s : Store) :
  serialize_response order s =
  match OrderOut_from_orm order with
  | Some out => (s, [], inr out)
  | None => (s, [], inl ResponseValidationError)
  end.
Proof. unfold serialize_response. by destruct (OrderOut_from_orm order). Qed.

Lemma create_order_run (order_in : OrderCreate.t) (user : string) (s : Store) :
  create_order order_in user s =
  let order := mkOrder (next_id s) (OrderCreate.customer_email order_in)
                       (OrderCreate.item order_in) created in
  (<[next_id s := order]> s,
   [Committed order; Logged (audit_record "order_created" (next_id s) user)],
   inr order).
Proof. reflexivity. Qed.

Lemma update_order_run (order_id : Z) (update : OrderUpdate.t) (user : string)
    (s : Store) :
  update_order order_id update user s =
  match s !! order_id with
  | None => (s, [], inl (HTTPException 404 "Order not found."))
  | Some found =>
      let order := set_status found (OrderUpdate.status update) in
      (<[id order := order]> s,
       [Committed order;
        Logged (audit_record "order_updated" (id order) user);
        Scheduled (send_email_task (customer_email order) (id order) (status order))],
       inr order)
  end.
Proof.
  unfold update_order. rewrite bind_run. unfold query_first.
  by destruct (s !! order_id).
Qed.

Lemma get_order_run (order_id : Z) (s : Store) :
  get_order order_id s =
  match s !! order_id with
  | None => (s, [], inl (HTTPException 404 "Order not found."))
  | Some order => (s, [], inr order)
  end.
Proof.
  unfold get_order. rewrite bind_run. unfold query_first.
  by destruct (s !! order_id).
Qed.

Lemma call_task_run (email : string) (order_id : Z) (st : OrderStatus) (s : Store) :
  call_task (send_email_task email order_id st) s =
  (s, [Logged (notification_record email order_id st)], inr tt).
Proof. reflexivity. Qed.

(** *** The three routes, case by case *)

Lemma endpoint_post (request : Request) (s : Store) :
  route request = POST_orders →
  endpoint request s =
  if decide (is_staff (headers request)) then
    match OrderCreate_validate (body request) with
    | inl errs => (s, [], inl (RequestValidationError errs))
    | inr order_in =>
        let order := mkOrder (next_id s) (OrderCreate.customer_email order_in)
                             (OrderCreate.item order_in) created in
        let ev := [Committed order;
                   Logged (audit_record "order_created" (next_id s) "staff")] in
        match OrderOut_from_orm order with
        | Some out =>
            (<[next_id s := order]> s, ev, inr (mkResponse 201 (COrder out)))
        | None => (<[next_id s := order]> s, ev, inl ResponseValidationError)
        end
    end
  else (s, [], inl (HTTPException 403 "Staff privileges required.")).
Proof.
  intros Hr. unfold endpoint. rewrite Hr, bind_run, staff_required_run.
  destruct (decide (is_staff (headers request))); [|done].
  rewrite bind_run. unfold request_body.
  destruct (OrderCreate_validate (body request)) as [errs|order_in]; [done|].
  cbn. rewrite bind_run, create_order_run. cbn.
  rewrite bind_run, serialize_response_run.
  by destruct (OrderOut_from_orm _).
Qed.

Lemma endpoint_put (request : Request) (order_id : Z) (s : Store) :
  route request = PUT_orders_id order_id →
  endpoint request s =
  if decide (is_staff (headers request)) then
    match OrderUpdate_validate (body request) with
    | inl errs => (s, [], inl (RequestValidationError errs))
    | inr update =>
        match s !! order_id with
        | None => (s, [], inl (HTTPException 404 "Order not found."))
        | Some found =>
            let order := set_status found (OrderUpdate.status update) in
            let ev := [Committed order;
                       Logged (audit_record "order_updated" (id order) "staff");
                       Scheduled (send_email_task (customer_email order) (id order)
                                                  (status order))] in
            match OrderOut_from_orm order with
            | Some out =>
                (<[id order := order]> s, ev, inr (mkResponse 200 (COrder out)))
            | None => (<[id order := order]> s, ev, inl ResponseValidationError)
            end
        end
    end
  else (s, [], inl (HTTPException 403 "Staff privileges required.")).
Proof.
  intros Hr. unfold endpoint. rewrite Hr, bind_run, staff_required_run.
  destruct (decide (is_staff (headers request))); [|done].
  rewrite bind_run. unfold request_body.
  destruct (OrderUpdate_validate (body request)) as [errs|update]; [done|].
  cbn. rewrite bind_run, update_order_run.
  destruct (s !! order_id) as [found|]; [|done].
  cbn. rewrite bind_run, serialize_response_run.
  by destruct (OrderOut_from_orm _).
Qed.

Lemma endpoint_get (request : Request) (order_id : Z) (s : Store) :
  route request = GET_orders_id order_id →
  endpoint request s =
  match s !! order_id with
  | None => (s, [], inl (HTTPException 404 "Order not found."))
  | Some order =>
      match OrderOut_from_orm order with
      | Some out => (s, [], inr (mkResponse 200 (COrder out)))
      | None => (s, [], inl ResponseValidationError)
      end
  end.
Proof.
  intros Hr. unfold endpoint. rewrite Hr, bind_run, get_order_run.
  destruct (s !! order_id) as [order|]; [|done].
  rewrite bind_run, serialize_response_run.
  by destruct (OrderOut_from_orm _).
Qed.

(** *** The key of a new row is not in use *)

Lemma max_id_bounds (s : Store) :
  match max_id s with
  | None => s = ∅
  | Some m => ∀ k, is_Some (s !! k) → k ≤ m
  end.
Proof.
  unfold max_id.
  apply (map_fold_weak_ind
           (λ (r : option Z) (m : Store),
              match r with
              | None => m = ∅
              | Some x => ∀ k, is_Some (m !! k) → k ≤ x
              end)); [done|].
  intros i x m r Hi IH k. rewrite lookup_insert.
  destruct (decide (i = k)) as [->|Hne]; intros Hk.
  - destruct r as [x0|]; simpl; lia.
  - destruct r as [x0|]; simpl.
    + specialize (IH k Hk). lia.
    + subst m. rewrite lookup_empty in Hk. by destruct Hk.
Qed.

Lemma next_id_fresh (s : Store) : s !! next_id s = None.
Proof.
  unfold next_id. pose proof (max_id_bounds s) as H.
  destruct (max_id s) as [m|].
  - destruct (s !! (m + 1)) eqn:E; [|done].
    assert (m + 1 ≤ m) by (apply H; eauto). lia.
  - by subst s.
Qed.

(** *** Validation *)

Lemma status_of_value_value (st : OrderStatus) :
  status_of_value (status_value st) = Some st.
Proof. by destruct st. Qed.

Lemma status_of_value_Some (v : string) (st : OrderStatus) :
  status_of_value v = Some st → v = status_value st.
Proof.
  unfold status_of_value. intros H.
  repeat (case_decide; [by simplify_eq|]). done.
Qed.

Lemma OrderCreate_validate_ok (m : gmap string Json) (e e' it : string) :
  m !! "customer_email" = Some (JStr e) →
  validate_email e = Some e' →
  m !! "item" = Some (JStr it) →
  (1 ≤ String.length it ≤ 100)%nat →
  OrderCreate_validate (JObj m) = inr (OrderCreate.mk e' it).
Proof.
  intros He Hv Hi Hl. unfold OrderCreate_validate, validate_customer_email,
    validate_item. rewrite He, Hv, Hi. by rewrite bool_decide_true.
Qed.

Lemma OrderCreate_validate_inr (b : Json) (order_in : OrderCreate.t) :
  OrderCreate_validate b = inr order_in →
  ∃ m e, b = JObj m ∧ m !! "customer_email" = Some (JStr e) ∧
    validate_email e = Some (OrderCreate.customer_email order_in) ∧
    m !! "item" = Some (JStr (OrderCreate.item order_in)) ∧
    (1 ≤ String.length (OrderCreate.item order_in) ≤ 100)%nat.
Proof.
  unfold OrderCreate_validate, validate_customer_email, validate_item.
  destruct b as [| | | | |m]; try done.
  destruct (m !! "customer_email") as [[| | |e| |]|] eqn:He; try done;
    try (by destruct (match m !! "item" with Some (JStr _) => _ | _ => _ end)).
  destruct (validate_email e) as [e'|] eqn:Hv;
    destruct (m !! "item") as [[| | |it| |]|] eqn:Hi; try done;
    case_bool_decide; try done.
  intros [= <-]. by exists m, e.
Qed.

Lemma OrderUpdate_validate_ok (m : gmap string Json) (st : OrderStatus) :
  m !! "status" = Some (JStr (status_value st)) →
  OrderUpdate_validate (JObj m) = inr (OrderUpdate.mk st).
Proof.
  intros H. unfold OrderUpdate_validate. by rewrite H, status_of_value_value.
Qed.

(** *** One request, case by case *)

Lemma serve_response (call : Task → M unit) (request : Request) (s : Store) :
  (serve call request s).2 =
  match (endpoint request s).2 with
  | inl exc => exception_response exc
  | inr resp => resp
  end.
Proof.
  unfold serve. destruct (endpoint request s) as [[s1 ev1] [exc|resp]]; [done|].
  by destruct (run_tasks call (scheduled ev1) s1) as [[s2 ev2] r].
Qed.

Lemma app_post (request : Request) (s : Store) :
  route request = POST_orders →
  app request s =
  if decide (is_staff (headers request)) then
    match OrderCreate_validate (body request) with
    | inl errs => (s, [Responded (unprocessable errs)], unprocessable errs)
    | inr order_in =>
        let order := mkOrder (next_id s) (OrderCreate.customer_email order_in)
                             (OrderCreate.item order_in) created in
        let resp := match OrderOut_from_orm order with
                    | Some out => mkResponse 201 (COrder out)
                    | None => server_error
                    end in
        (<[next_id s := order]> s,
         [Committed order;
          Logged (audit_record "order_created" (next_id s) "staff");
          Responded resp],
         resp)
    end
  else (s, [Responded forbidden], forbidden).
Proof.
  intros Hr. unfold app, serve. rewrite (endpoint_post _ _ Hr).
  destruct (decide (is_staff (headers request))); [|done].
  destruct (OrderCreate_validate (body request)) as [errs|order_in]; [done|].
  cbn zeta. by destruct (OrderOut_from_orm _).
Qed.

Lemma app_put (request : Request) (order_id : Z) (s : Store) :
  route request = PUT_orders_id order_id →
  app request s =
  if decide (is_staff (headers request)) then
    match OrderUpdate_validate (body request) with
    | inl errs => (s, [Responded (unprocessable errs)], unprocessable errs)
    | inr update =>
        match s !! order_id with
        | None => (s, [Responded not_found], not_found)
        | Some found =>
            let order := set_status found (OrderUpdate.status update) in
            let t := send_email_task (customer_email order) (id order)
                                     (status order) in
            match OrderOut_from_orm order with
            | Some out =>
                (<[id order := order]> s,
                 [Committed order;
                  Logged (audit_record "order_updated" (id order) "staff");
                  Scheduled t;
                  Responded (mkResponse 200 (COrder out));
                  Started t;
                  Logged (notification_record (customer_email order) (id order)
                                              (status order))],
                 mkResponse 200 (COrder out))
            | None =>
                (<[id order := order]> s,
                 [Committed order;
                  Logged (audit_record "order_updated" (id order) "staff");
                  Scheduled t;
                  Responded server_error],
                 server_error)
            end
        end
    end
  else (s, [Responded forbidden], forbidden).
Proof.
  intros Hr. unfold app, serve. rewrite (endpoint_put _ _ _ Hr).
  destruct (decide (is_staff (headers request))); [|done].
  destruct (OrderUpdate_validate (body request)) as [errs|update]; [done|].
  destruct (s !! order_id) as [found|]; [|done].
  cbn zeta. by destruct (OrderOut_from_orm _).
Qed.

Lemma app_get (request : Request) (order_id : Z) (s : Store) :
  route request = GET_orders_id order_id →
  app request s =
  match s !! order_id with
  | None => (s, [Responded not_found], not_found)
  | Some order =>
      let resp := match OrderOut_from_orm order with
                  | Some out => mkResponse 200 (COrder out)
                  | None => server_error
                  end in
      (s, [Responded resp], resp)
  end.
Proof.
  intros Hr. unfold app, serve. rewrite (endpoint_get _ _ _ Hr).
  destruct (s !! order_id) as [order|]; [|done].
  cbn zeta. by destruct (OrderOut_from_orm _).
Qed.

(** *** What the table keeps *)

Lemma app_store_step (request : Request) (s : Store) :
  store_step s (app request s).1.1.
Proof.
  destruct (route request) as [|order_id|order_id] eqn:Hr.
  - rewrite (app_post _ _ Hr).
    destruct (decide _); [|constructor].
    destruct (OrderCreate_validate (body request)) as [errs|order_in] eqn:Hv;
      [constructor|].
    apply OrderCreate_validate_inr in Hv as (m & e & _ & _ & Hv & _).
    cbn. by eapply step_insert.
  - rewrite (app_put _ _ _ Hr).
    destruct (decide _); [|constructor].
    destruct (OrderUpdate_validate (body request)) as [errs|update];
      [constructor|].
    destruct (s !! order_id) as [found|] eqn:Hf; [|constructor].
    cbn zeta. destruct (OrderOut_from_orm _); cbn; by eapply step_update.
  - rewrite (app_get _ _ _ Hr).
    destruct (s !! order_id); constructor.
Qed.

Lemma store_ok_empty : store_ok ∅.
Proof. intros k o H. by rewrite lookup_empty in H. Qed.

Lemma store_step_ok (s s' : Store) :
  store_ok s → store_step s s' → store_ok s'.
Proof.
  intros Hok [|e0 e it Hv|k o st Hk].
  - done.
  - intros k o. rewrite lookup_insert. case_decide.
    + intros [= <-]. cbn. split; [done|]. by eapply validate_email_stable.
    + by apply Hok.
  - destruct (Hok _ _ Hk) as [Hid He].
    intros k' o'. rewrite lookup_insert. case_decide.
    + intros [= <-]. cbn. split; [congruence|done].
    + by apply Hok.
Qed.

Lemma store_step_same_order (s s' : Store) (k : Z) (o : Order) :
  store_ok s → store_step s s' → s !! k = Some o →
  ∃ o', s' !! k = Some o' ∧ same_order o o'.
Proof.
  intros Hok [|e0 e it Hv|k2 o2 st Hk2] Hk.
  - by exists o.
  - exists o. split; [|done]. rewrite lookup_insert_ne; [done|].
    intros <-. by rewrite next_id_fresh in Hk.
  - destruct (Hok _ _ Hk2) as [Hid _].
    destruct (decide (k2 = k)) as [->|Hne].
    + assert (o2 = o) as -> by congruence. exists (set_status o st).
      split; [|done]. rewrite Hid. apply lookup_insert_eq.
    + exists o. split; [|done]. rewrite lookup_insert_ne; [done|congruence].
Qed.

Lemma store_ok_set_status (s : Store) (k : Z) (o : Order) (st : OrderStatus) :
  store_ok s → s !! k = Some o → store_ok (<[k := set_status o st]> s).
Proof.
  intros Hok Hk. destruct (Hok _ _ Hk) as [Hid He].
  intros k' o'. rewrite lookup_insert. case_decide.
  - intros [= <-]. by subst k'.
  - by apply Hok.
Qed.

Lemma same_order_trans (o1 o2 o3 : Order) :
  same_order o1 o2 → same_order o2 o3 → same_order o1 o3.
Proof. unfold same_order. intros (?&?&?) (?&?&?). repeat split; congruence. Qed.

Lemma run_ok (requests : list Request) (s : Store) :
  store_ok s → store_ok (run requests s).
Proof.
  revert s. induction requests as [|request rest IH]; intros s Hok; [done|].
  cbn. apply IH. eapply store_step_ok; [done|]. apply app_store_step.
Qed.

Lemma run_same_order (requests : list Request) (s : Store) (k : Z) (o : Order) :
  store_ok s → s !! k = Some o →
  ∃ o', run requests s !! k = Some o' ∧ same_order o o'.
Proof.
  revert s o. induction requests as [|request rest IH]; intros s o Hok Hk.
  - by exists o.
  - cbn.
    destruct (store_step_same_order _ _ _ _ Hok (app_store_step request s) Hk)
      as (o1 & Hk1 & Hs1).
    destruct (IH _ _ (store_step_ok _ _ Hok (app_store_step request s)) Hk1)
      as (o2 & Hk2 & Hs2).
    exists o2. split; [done|]. by eapply same_order_trans.
Qed.

Lemma OrderOut_from_orm_ok (s : Store) (k : Z) (o : Order) (st : OrderStatus) :
  store_ok s → s !! k = Some o →
  OrderOut_from_orm (set_status o st) =
  Some (OrderOut.mk k (customer_email o) (item o) st).
Proof.
  intros Hok Hk. destruct (Hok _ _ Hk) as [Hid He].
  unfold OrderOut_from_orm. cbn. rewrite He. cbn. by rewrite Hid.
Qed.

(** *** The claims *)

(** C1: a create with the role claim [staff] and a valid payload (an
    address that validation accepts, an item of 1 to 100 characters)
    answers 201 with an order whose status is [created], and a get of the
    returned id, by any caller, then answers with the same order
    representation: same id, address, item and status. *)
Theorem create_then_get (s : Store) (h h' : Headers) (m : gmap string Json)
    (e e' it : string) (b' : Json) :
  is_staff h →
  m !! "customer_email" = Some (JStr e) →
  validate_email e = Some e' →
  m !! "item" = Some (JStr it) →
  (1 ≤ String.length it ≤ 100)%nat →
  let out := OrderOut.mk (next_id s) e' it created in
  let after := app (mkRequest POST_orders h (JObj m)) s in
  after.2 = mkResponse 201 (COrder out) ∧
  OrderOut.status out = created ∧
  (app (mkRequest (GET_orders_id (OrderOut.id out)) h' b') after.1.1).2
    = mkResponse 200 (COrder out).
Proof.
  intros Hs He Hv Hi Hl out after.
  assert (Hout : OrderOut_from_orm (mkOrder (next_id s) e' it created) = Some out).
  { unfold OrderOut_from_orm. cbn.
    by rewrite (validate_email_stable _ _ Hv). }
  assert (Hafter : after =
    (<[next_id s := mkOrder (next_id s) e' it created]> s,
     [Committed (mkOrder (next_id s) e' it created);
      Logged (audit_record "order_created" (next_id s) "staff");
      Responded (mkResponse 201 (COrder out))],
     mkResponse 201 (COrder out))).
  { unfold after. rewrite app_post by done. cbn [headers body].
    rewrite decide_True by done.
    rewrite (OrderCreate_validate_ok _ _ _ _ He Hv Hi Hl). cbn.
    by rewrite Hout. }
  rewrite Hafter. cbn [fst snd]. split; [done|]. split; [done|].
  rewrite (app_get _ (next_id s)) by done.
  rewrite lookup_insert_eq. cbn zeta. by rewrite Hout.
Qed.

(** C2: for an order stored in a table the service wrote, whatever
    requests followed and whatever status they left it in, an update
    with the role claim [staff] and any of the four status values answers
    200 with an order that has the submitted status and the id, address
    and item the order was stored with; the table then holds that order.
    No status is refused on account of the previous one. *)
Theorem update_any_status (s : Store) (k : Z) (o : Order)
    (requests : list Request) (h : Headers) (m : gmap string Json)
    (st : OrderStatus) :
  store_ok s →
  s !! k = Some o →
  is_staff h →
  m !! "status" = Some (JStr (status_value st)) →
  let now := run requests s in
  let after := app (mkRequest (PUT_orders_id k) h (JObj m)) now in
  after.2 = mkResponse 200
              (COrder (OrderOut.mk k (customer_email o) (item o) st)) ∧
  after.1.1 = <[k := mkOrder k (customer_email o) (item o) st]> now.
Proof.
  intros Hok Hk Hs Hm now after.
  destruct (run_same_order requests s k o Hok Hk) as (o' & Hk' & Hid & He & Hi).
  pose proof (run_ok requests s Hok) as Hok'. fold now in Hk', Hok'.
  destruct (Hok' _ _ Hk') as [Hid' _].
  unfold after. rewrite (app_put _ k) by done. cbn [headers body].
  rewrite decide_True by done.
  rewrite (OrderUpdate_validate_ok _ _ Hm), Hk'. cbn zeta.
  rewrite (OrderOut_from_orm_ok now k o' _ Hok' Hk'). cbn.
  rewrite He, Hi, Hid'. split; [done|].
  f_equal. unfold set_status. by rewrite Hid', He, Hi.
Qed.


(** C4: the response of a request does not depend on what the queued
    tasks do when they run.  An update that answers 200 commits the row,
    then queues one notification with the address, the id and the new
    status of the order, then answers, and only then starts the
    notification, once.  A create, a get and every request that does not
    answer 200 start none. *)
Theorem notification_dispatch (call : Task → M unit) (request : Request)
    (s : Store) :
  (serve call request s).2 = (app request s).2 ∧
  (∀ k, route request = PUT_orders_id k →
     status_code (app request s).2 = 200 →
     ∃ o st,
       s !! k = Some o ∧
       OrderUpdate_validate (body request) = inr (OrderUpdate.mk st) ∧
       let t := send_email_task (customer_email o) (id o) st in
       (app request s).1.2 =
         [Committed (set_status o st);
          Logged (audit_record "order_updated" (id o) "staff");
          Scheduled t;
          Responded (app request s).2;
          Started t;
          Logged (notification_record (customer_email o) (id o) st)] ∧
       scheduled (app request s).1.2 = [t] ∧
       dispatched (app request s).1.2 = [t]) ∧
  ((∀ k, route request ≠ PUT_orders_id k) ∨
   status_code (app request s).2 ≠ 200 →
     dispatched (app request s).1.2 = []).
Proof.
  split; [|split].
  - unfold app. by rewrite !serve_response.
  - intros k Hr. rewrite (app_put _ k) by done.
    destruct (decide _); [|done].
    destruct (OrderUpdate_validate (body request)) as [errs|[st]]; [done|].
    destruct (s !! k) as [o|]; [|done].
    cbn zeta. destruct (OrderOut_from_orm _); [|done].
    intros _. by exists o, st.
  - intros H. destruct (route request) as [|k|k] eqn:Hr.
    + rewrite app_post by done. destruct (decide _); [|done].
      by destruct (OrderCreate_validate (body request)).
    + destruct H as [H|H]; [by destruct (H k)|]. revert H.
      rewrite (app_put _ k) by done. destruct (decide _); [|done].
      destruct (OrderUpdate_validate (body request)); [done|].
      destruct (s !! k); [|done].
      cbn zeta. by destruct (OrderOut_from_orm _).
    + rewrite (app_get _ k) by done. by destruct (s !! k).
Qed.


(** C6, as the code has it: for an order id in the signed 64-bit range
    that is not in the table, an update with the role claim [staff] and a
    status from the enum, and a get, both answer 404 with the detail
    [Order not found.] and leave the table as it was.  A get of an id in
    that range is answered whatever the headers are, it never changes the
    table and never logs, and it answers 200 with the order when the id is
    in the table. *)
Theorem missing_order_not_found (s : Store) (k : Z) (h h' : Headers)
    (m : gmap string Json) (st : OrderStatus) (b' : Json) :
  int64 k →
  let r := mkResponse 404 (CDetail "Order not found.") in
  let put := mkRequest (PUT_orders_id k) h (JObj m) in
  let get := mkRequest (GET_orders_id k) h' b' in
  (s !! k = None → is_staff h → m !! "status" = Some (JStr (status_value st)) →
     app put s = (s, [Responded r], r)) ∧
  (s !! k = None → app get s = (s, [Responded r], r)) ∧
  (app get s).1.1 = s ∧
  logged (app get s).1.2 = [] ∧
  (∀ o, store_ok s → s !! k = Some o →
     (app get s).2 = mkResponse 200 (COrder (order_out o))).
Proof.
  intros _ r put get. split; [|split; [|split; [|split]]].
  - intros Hk Hs Hm. unfold put. rewrite (app_put _ k) by done.
    cbn [headers body]. rewrite decide_True by done.
    by rewrite (OrderUpdate_validate_ok _ _ Hm), Hk.
  - intros Hk. unfold get. rewrite (app_get _ k) by done. by rewrite Hk.
  - unfold get. rewrite (app_get _ k) by done. by destruct (s !! k).
  - unfold get. rewrite (app_get _ k) by done. by destruct (s !! k).
  - intros o Hok Hk. unfold get. rewrite (app_get _ k) by done.
    rewrite Hk. cbn. destruct (Hok _ _ Hk) as [Hid He].
    unfold OrderOut_from_orm. by rewrite He.
Qed.

(** C7, as the code has it: a create that answers 201 logs one record,
    with the event [order_created]; an update that answers 200 logs one
    record with the event [order_updated]; each carries the id of the
    order and the role of the caller.  The line of a record holds the
    fields among level, message, event, order_id and user whose value is
    not [None], each with its value and in this order, and no other: a
    field that is [None] is left out, a field that is empty is not.  For
    an audit record these are all five, the message being the empty string
    it was logged with. *)
Theorem audit_records (request : Request) (s : Store) :
  (route request = POST_orders →
   status_code (app request s).2 = 201 →
   ∃ out,
     (app request s).2 = mkResponse 201 (COrder out) ∧
     headers_get "X-User-Role" (headers request) = Some "staff" ∧
     logged (app request s).1.2 =
       [audit_record "order_created" (OrderOut.id out) "staff"]) ∧
  (∀ k, route request = PUT_orders_id k →
   status_code (app request s).2 = 200 →
   ∃ out,
     (app request s).2 = mkResponse 200 (COrder out) ∧
     headers_get "X-User-Role" (headers request) = Some "staff" ∧
     with_event "order_updated" (logged (app request s).1.2) =
       [audit_record "order_updated" (OrderOut.id out) "staff"]) ∧
  (∀ event order_id user,
     log_fields (audit_record event order_id user) =
       [ ("level", PStr "INFO"); ("message", PStr ""); ("event", PStr event);
         ("order_id", PInt order_id); ("user", PStr user) ]) ∧
  (∀ record k v,
     (k, v) ∈ log_fields record ↔ (k, Some v) ∈ log_record_dict record).
Proof.
  split; [|split; [|split]].
  - intros Hr. rewrite app_post by done.
    destruct (decide _) as [Hs|]; [|done].
    destruct (OrderCreate_validate (body request)) as [errs|order_in]; [done|].
    cbn zeta. destruct (OrderOut_from_orm _) as [out|] eqn:Hout; [|done].
    intros _. exists out. split; [done|]. split; [done|].
    unfold OrderOut_from_orm in Hout. cbn in Hout.
    destruct (validate_email _); [|done]. cbn in Hout. by simplify_eq.
  - intros k Hr. rewrite (app_put _ k) by done.
    destruct (decide _) as [Hs|]; [|done].
    destruct (OrderUpdate_validate (body request)) as [errs|update]; [done|].
    destruct (s !! k) as [o|]; [|done].
    cbn zeta. destruct (OrderOut_from_orm _) as [out|] eqn:Hout; [|done].
    intros _. exists out. split; [done|]. split; [done|].
    unfold OrderOut_from_orm in Hout. cbn in Hout.
    destruct (validate_email _); [|done]. cbn in Hout. by simplify_eq.
  - done.
  - intros record k v. unfold log_fields, remove_none.
    rewrite list_elem_of_omap. split.
    + intros ([k' [v'|]] & Hin & Heq); cbn in Heq; by simplify_eq.
    + intros Hin. by exists (k, Some v).
Qed.

(** C8, what the code does: the record that a notification logs has no
    [event], [order_id] or [user] attribute, so its line holds the level
    and the message only; the event name, the id, the address and the
    status are text inside the message. *)
Theorem notification_line_fields (email : string) (order_id : Z)
    (st : OrderStatus) (s : Store) :
  mock_send_email email order_id st s =
    (s, [Logged (notification_record email order_id st)], inr tt) ∧
  log_fields (notification_record email order_id st) =
    [ ("level", PStr "INFO");
      ("message",
       PStr (py_str [ ("event", PStr "notification_sent");
                      ("order_id", PInt order_id);
                      ("email", PStr email);
                      ("status", PEnum st) ])) ] ∧
  dict_get "event" (log_fields (notification_record email order_id st)) = None.
Proof. done. Qed.


(** C10: a create looks at the keys [customer_email] and [item] of its
    payload and at no other: two payloads that agree on these two are
    answered alike and leave the same table, whatever else they hold.
    When the answer is 201 the order has the key that the table assigned,
    free until then, and the status [created], and the table holds it
    so. *)
Theorem create_ignores_other_fields (s : Store) (h : Headers)
    (m m' : gmap string Json) :
  (m' !! "customer_email" = m !! "customer_email" →
   m' !! "item" = m !! "item" →
   app (mkRequest POST_orders h (JObj m')) s =
   app (mkRequest POST_orders h (JObj m)) s) ∧
  (∀ out,
     (app (mkRequest POST_orders h (JObj m)) s).2 =
       mkResponse 201 (COrder out) →
     OrderOut.id out = next_id s ∧
     OrderOut.status out = created ∧
     s !! OrderOut.id out = None ∧
     ∃ o, (app (mkRequest POST_orders h (JObj m)) s).1.1 !! OrderOut.id out
            = Some o ∧
          id o = OrderOut.id out ∧ status o = created).
Proof.
  split.
  - intros He Hi. rewrite !app_post by done. cbn [headers body].
    assert (OrderCreate_validate (JObj m') = OrderCreate_validate (JObj m)) as ->;
      [|done].
    unfold OrderCreate_validate, validate_customer_email, validate_item.
    by rewrite He, Hi.
  - intros out. rewrite app_post by done. cbn [headers body].
    destruct (decide _); [|done].
    destruct (OrderCreate_validate (JObj m)) as [errs|order_in]; [done|].
    cbn zeta. destruct (OrderOut_from_orm _) as [out'|] eqn:Hout; [|done].
    cbn [fst snd]. intros [= <-].
    unfold OrderOut_from_orm in Hout. cbn in Hout.
    destruct (validate_email _); [|done]. cbn in Hout. simplify_eq. cbn.
    split; [done|]. split; [done|]. split; [apply next_id_fresh|].
    eexists. split; [apply lookup_insert_eq|done].
Qed.

(** *** Further properties of the table *)

(** X1: the table stays well formed.  From a table in which every row
    sits under its own key with a validated address, any sequence of
    requests leads to such a table. *)
Theorem requests_keep_store_ok (requests : list Request) (s : Store) :
  store_ok s → store_ok (run requests s).
Proof.
  revert s. induction requests as [|request rest IH]; intros s Hok.
  - exact Hok.
  - cbn [run]. apply IH.
    eapply store_step_ok; [exact Hok|].
    apply app_store_step.
Qed.

(** X2: no request removes an order or changes its id, address or item:
    an order of a well-formed table is still there after any sequence of
    requests, with the status as the only field that may differ. *)
Theorem orders_persist (requests : list Request) (s : Store) (k : Z) (o : Order) :
  store_ok s →
  s !! k = Some o →
  ∃ o', run requests s !! k = Some o' ∧
        id o' = id o ∧ customer_email o' = customer_email o ∧ item o' = item o.
Proof.
  revert s o. induction requests as [|request rest IH]; intros s o Hok Hk.
  - by exists o.
  - cbn [run].
    pose proof (app_store_step request s) as Hstep.
    destruct (store_step_same_order _ _ _ _ Hok Hstep Hk)
      as (o1 & Hk1 & Hid1 & He1 & Hi1).
    destruct (IH _ _ (store_step_ok _ _ Hok Hstep) Hk1)
      as (o2 & Hk2 & Hid2 & He2 & Hi2).
    exists o2. repeat split; [done|congruence..].
Qed.

(** X4: an update touches the row it names and no other.  Whatever the
    outcome of a request to [PUT /orders/k] on a well-formed table, every
    other row is as before and no key is added or removed. *)
Theorem update_touches_one_row (request : Request) (k : Z) (s : Store) :
  store_ok s →
  route request = PUT_orders_id k →
  (∀ k', k' ≠ k → (app request s).1.1 !! k' = s !! k') ∧
  dom (app request s).1.1 = dom s.
Proof.
  intros Hok Hr. rewrite (app_put _ k) by done.
  destruct (decide _); [|done].
  destruct (OrderUpdate_validate (body request)) as [errs|update]; [done|].
  destruct (s !! k) as [o|] eqn:Hk; [|done].
  destruct (Hok _ _ Hk) as [Hid _].
  cbn zeta. destruct (OrderOut_from_orm _); cbn; rewrite Hid; split.
  - intros k' Hne. by rewrite lookup_insert_ne.
  - apply dom_insert_lookup_L. eauto.
  - intros k' Hne. by rewrite lookup_insert_ne.
  - apply dom_insert_lookup_L. eauto.
Qed.

(** X5: a create leaves every row of the table as it was, and adds at
    most the one row of the new order, under the key that was next; when
    it answers 201 the table has exactly one row more. *)
Theorem create_adds_one_row (request : Request) (s : Store) :
  route request = POST_orders →
  (∀ k, is_Some (s !! k) → (app request s).1.1 !! k = s !! k) ∧
  dom (app request s).1.1 ⊆ {[next_id s]} ∪ dom s ∧
  (status_code (app request s).2 = 201 →
     dom (app request s).1.1 = {[next_id s]} ∪ dom s ∧
     size (app request s).1.1 = S (size s)).
Proof.
  intros Hr. rewrite app_post by done.
  assert (Hsame : (∀ k, is_Some (s !! k) → s !! k = s !! k) ∧
                  dom s ⊆ {[next_id s]} ∪ dom s)
    by (split; [done|apply union_subseteq_r]).
  destruct (decide _); [|by destruct Hsame].
  destruct (OrderCreate_validate (body request)) as [errs|order_in];
    [by destruct Hsame|].
  cbn [fst snd]. split; [|split].
  - intros k Hk. rewrite lookup_insert_ne; [done|].
    intros <-. rewrite next_id_fresh in Hk. by destruct Hk.
  - by rewrite dom_insert_L.
  - intros _. split; [by rewrite dom_insert_L|].
    apply map_size_insert_None, next_id_fresh.
Qed.

(** *** Further properties of the responses and of the trace *)



(** X6: a request that is answered 403, 404 or 422 has done nothing: the
    table is as before, and the trace holds the response and nothing else
    (no commit, no log record, no queued task). *)
Theorem client_errors_change_nothing (request : Request) (s : Store) :
  status_code (app request s).2 = 403 ∨
  status_code (app request s).2 = 404 ∨
  status_code (app request s).2 = 422 →
  app request s = (s, [Responded (app request s).2], (app request s).2).
Proof.
  destruct (route request) as [|k|k] eqn:Hr.
  - rewrite app_post by done. destruct (decide _); [|done].
    destruct (OrderCreate_validate (body request)); [done|].
    cbn zeta. destruct (OrderOut_from_orm _); cbn; intros [|[|]]; done.
  - rewrite (app_put _ k) by done. destruct (decide _); [|done].
    destruct (OrderUpdate_validate (body request)); [done|].
    destruct (s !! k); [|done].
    cbn zeta. destruct (OrderOut_from_orm _); cbn; intros [|[|]]; done.
  - rewrite (app_get _ k) by done. destruct (s !! k); [|done].
    cbn zeta. destruct (OrderOut_from_orm _); cbn; intros [|[|]]; done.
Qed.


(** X9: an update of a row whose stored address does not pass validation
    is carried out and then fails: the new status is committed and the
    audit record logged, the notification is queued, but the answer is a
    server error and the notification is never started. *)
Theorem update_of_unvalidated_address (s : Store) (k : Z) (o : Order)
    (h : Headers) (m : gmap string Json) (st : OrderStatus) :
  s !! k = Some o →
  validate_email (customer_email o) = None →
  is_staff h →
  m !! "status" = Some (JStr (status_value st)) →
  let after := app (mkRequest (PUT_orders_id k) h (JObj m)) s in
  let t := send_email_task (customer_email o) (id o) st in
  after =
    (<[id o := set_status o st]> s,
     [Committed (set_status o st);
      Logged (audit_record "order_updated" (id o) "staff");
      Scheduled t;
      Responded (mkResponse 500 (CText "Internal Server Error"))],
     mkResponse 500 (CText "Internal Server Error")) ∧
  dispatched after.1.2 = [].
Proof.
  intros Hk He Hs Hm after t.
  assert (Hafter : after =
    (<[id o := set_status o st]> s,
     [Committed (set_status o st);
      Logged (audit_record "order_updated" (id o) "staff");
      Scheduled t;
      Responded (mkResponse 500 (CText "Internal Server Error"))],
     mkResponse 500 (CText "Internal Server Error"))).
  { unfold after. rewrite (app_put _ k) by done. cbn [headers body].
    rewrite decide_True by done.
    rewrite (OrderUpdate_validate_ok _ _ Hm), Hk. cbn zeta.
    unfold OrderOut_from_orm. cbn. by rewrite He. }
  split; [done|]. by rewrite Hafter.
Qed.

(** X10: the fields of a log line, by name.  The level and the message
    are always there; [event], [order_id] and [user] are there with the
    value of the attribute when the record has it; an attribute of any
    other name does not reach the line. *)
Theorem log_fields_by_name (record : LogRecord) (k : string) :
  dict_get k (log_fields record) =
  if decide (k = "level") then Some (PStr (levelname record))
  else if decide (k = "message") then Some (PStr (msg record))
  else if decide (k = "event" ∨ k = "order_id" ∨ k = "user")
       then getattr record k
       else None.
Proof.
  unfold log_fields, log_record_dict, remove_none, dict_get. cbn.
  destruct (getattr record "event") as [v1|] eqn:E1;
    destruct (getattr record "order_id") as [v2|] eqn:E2;
    destruct (getattr record "user") as [v3|] eqn:E3; cbn;
    repeat (case_bool_decide; cbn);
    repeat case_decide; subst; try done;
    try (exfalso; intuition congruence); intuition (subst; congruence).
Qed.

(** X11: no audit record without a commit.  Every record with an [event]
    attribute in the trace of a request names, as [order_id], the id of a
    row committed in the same trace, and has [staff] as its [user]. *)
Theorem audit_follows_commit (request : Request) (s : Store) (record : LogRecord) :
  record ∈ logged (app request s).1.2 →
  is_Some (getattr record "event") →
  ∃ o, o ∈ committed (app request s).1.2 ∧
       getattr record "order_id" = Some (PInt (id o)) ∧
       getattr record "user" = Some (PStr "staff").
Proof.
  destruct (route request) as [|k|k] eqn:Hr.
  - rewrite app_post by done. destruct (decide _); [|by intros ?%elem_of_nil].
    destruct (OrderCreate_validate (body request)) as [errs|order_in];
      [by intros ?%elem_of_nil|].
    cbn. intros ->%list_elem_of_singleton _.
    eexists. split; [apply list_elem_of_singleton; reflexivity|done].
  - rewrite (app_put _ k) by done. destruct (decide _); [|by intros ?%elem_of_nil].
    destruct (OrderUpdate_validate (body request)) as [errs|update];
      [by intros ?%elem_of_nil|].
    destruct (s !! k) as [o|]; [|by intros ?%elem_of_nil].
    cbn zeta. destruct (OrderOut_from_orm _); cbn.
    + intros [->|[->|?%elem_of_nil]%elem_of_cons]%elem_of_cons Hev; [|by destruct Hev|done].
      eexists. split; [apply list_elem_of_singleton; reflexivity|done].
    + intros ->%list_elem_of_singleton _.
      eexists. split; [apply list_elem_of_singleton; reflexivity|done].
  - rewrite (app_get _ k) by done. by destruct (s !! k); intros ?%elem_of_nil.
Qed.

(** X13: the table changes by commits only.  A request commits at most
    one row; every committed row is in the table afterwards, under its
    id; without a commit the table is as before. *)
Theorem table_changes_by_commit (request : Request) (s : Store) :
  (length (committed (app request s).1.2) ≤ 1)%nat ∧
  (∀ o, o ∈ committed (app request s).1.2 →
        (app request s).1.1 !! id o = Some o) ∧
  (committed (app request s).1.2 = [] → (app request s).1.1 = s).
Proof.
  destruct (route request) as [|k|k] eqn:Hr.
  - rewrite app_post by done.
    destruct (decide _); [|by repeat split; [cbn; lia|intros ? ?%elem_of_nil]].
    destruct (OrderCreate_validate (body request)) as [errs|order_in];
      [by repeat split; [cbn; lia|intros ? ?%elem_of_nil]|].
    cbn. repeat split; [lia| |done].
    intros o ->%list_elem_of_singleton. apply lookup_insert_eq.
  - rewrite (app_put _ k) by done.
    destruct (decide _); [|by repeat split; [cbn; lia|intros ? ?%elem_of_nil]].
    destruct (OrderUpdate_validate (body request)) as [errs|update];
      [by repeat split; [cbn; lia|intros ? ?%elem_of_nil]|].
    destruct (s !! k) as [o|];
      [|by repeat split; [cbn; lia|intros ? ?%elem_of_nil]].
    cbn zeta. destruct (OrderOut_from_orm _); cbn;
      (repeat split; [lia| |done]);
      intros o' ->%list_elem_of_singleton; apply lookup_insert_eq.
  - rewrite (app_get _ k) by done.
    destruct (s !! k); by repeat split; [cbn; lia|intros ? ?%elem_of_nil].
Qed.

(** X14: running queued notifications cannot fail and does not touch the
    table: for any list of tasks the run ends normally, the table is as
    before, and each task is started once, in the order of the list, and
    logs its one record right after. *)
Theorem run_tasks_logs_each (ts : list Task) (s : Store) :
  ∃ ev,
    run_tasks call_task ts s = (s, ev, inr tt) ∧
    dispatched ev = ts ∧
    logged ev =
      map (λ t, match t with
                | send_email_task email order_id st =>
                    notification_record email order_id st
                end) ts ∧
    committed ev = [] ∧
    length ev = (2 * length ts)%nat.
Proof.
  induction ts as [|[email order_id st] ts (ev & Hrun & Hd & Hl & Hc & Hlen)].
  - by exists [].
  - exists (Started (send_email_task email order_id st)
            :: Logged (notification_record email order_id st) :: ev).
    cbn [run_tasks]. rewrite bind_run. cbn [emit].
    rewrite bind_run, call_task_run, Hrun.
    cbn [app length]. unfold dispatched, logged, committed in *. cbn [omap list_omap].
    rewrite Hd, Hl, Hc, Hlen. repeat split; try done. lia.
Qed.

(** *** How requests compose, and what the validation accepts *)

Lemma app_put_ok (s : Store) (k : Z) (o : Order) (h : Headers)
    (m : gmap string Json) (st : OrderStatus) :
  store_ok s → s !! k = Some o → is_staff h →
  m !! "status" = Some (JStr (status_value st)) →
  app (mkRequest (PUT_orders_id k) h (JObj m)) s =
  (<[k := set_status o st]> s,
   [Committed (set_status o st);
    Logged (audit_record "order_updated" k "staff");
    Scheduled (send_email_task (customer_email o) k st);
    Responded (mkResponse 200
                 (COrder (OrderOut.mk k (customer_email o) (item o) st)));
    Started (send_email_task (customer_email o) k st);
    Logged (notification_record (customer_email o) k st)],
   mkResponse 200 (COrder (OrderOut.mk k (customer_email o) (item o) st))).
Proof.
  intros Hok Hk Hs Hm. destruct (Hok _ _ Hk) as [Hid He].
  rewrite (app_put _ k) by done. cbn [headers body].
  rewrite decide_True by done.
  rewrite (OrderUpdate_validate_ok _ _ Hm), Hk. cbn zeta.
  rewrite (OrderOut_from_orm_ok s k o _ Hok Hk). cbn. by rewrite Hid.
Qed.

(** X15: the last update wins.  Two updates of the same order in a row,
    both with the role claim [staff] and a status from the enum, end in
    the table, the answer and the effects of the second update alone. *)
Theorem last_update_wins (s : Store) (k : Z) (o : Order) (h1 h2 : Headers)
    (m1 m2 : gmap string Json) (st1 st2 : OrderStatus) :
  store_ok s →
  s !! k = Some o →
  is_staff h1 → m1 !! "status" = Some (JStr (status_value st1)) →
  is_staff h2 → m2 !! "status" = Some (JStr (status_value st2)) →
  let first := app (mkRequest (PUT_orders_id k) h1 (JObj m1)) s in
  app (mkRequest (PUT_orders_id k) h2 (JObj m2)) first.1.1 =
  app (mkRequest (PUT_orders_id k) h2 (JObj m2)) s.
Proof.
  intros Hok Hk Hs1 Hm1 Hs2 Hm2 first. unfold first.
  rewrite (app_put_ok s k o h1 m1 st1) by done. cbn [fst snd].
  rewrite (app_put_ok s k o h2 m2 st2) by done.
  rewrite (app_put_ok _ k (set_status o st1) h2 m2 st2);
    [|by apply store_ok_set_status|apply lookup_insert_eq|done|done].
  by rewrite insert_insert_eq.
Qed.

(** X16: updates of different orders do not interfere: in either order
    they leave the same table, and each is answered as it would be
    alone. *)
Theorem updates_commute (s : Store) (k1 k2 : Z) (o1 o2 : Order) (h1 h2 : Headers)
    (m1 m2 : gmap string Json) (st1 st2 : OrderStatus) :
  store_ok s →
  k1 ≠ k2 →
  s !! k1 = Some o1 → s !! k2 = Some o2 →
  is_staff h1 → m1 !! "status" = Some (JStr (status_value st1)) →
  is_staff h2 → m2 !! "status" = Some (JStr (status_value st2)) →
  let r1 := mkRequest (PUT_orders_id k1) h1 (JObj m1) in
  let r2 := mkRequest (PUT_orders_id k2) h2 (JObj m2) in
  (app r2 (app r1 s).1.1).1.1 = (app r1 (app r2 s).1.1).1.1 ∧
  (app r2 (app r1 s).1.1).2 = (app r2 s).2 ∧
  (app r1 (app r2 s).1.1).2 = (app r1 s).2.
Proof.
  intros Hok Hne Hk1 Hk2 Hs1 Hm1 Hs2 Hm2 r1 r2. unfold r1, r2.
  rewrite (app_put_ok s k1 o1 h1 m1 st1) by done.
  rewrite (app_put_ok s k2 o2 h2 m2 st2) by done. cbn [fst snd].
  rewrite (app_put_ok _ k2 o2 h2 m2 st2);
    [|by apply store_ok_set_status|by rewrite lookup_insert_ne|done|done].
  rewrite (app_put_ok _ k1 o1 h1 m1 st1);
    [|by apply store_ok_set_status|by rewrite lookup_insert_ne|done|done].
  cbn [fst snd]. split; [|done]. by apply insert_insert_ne.
Qed.

(** X17: a get after an update reads what the update wrote: the order
    with the new status, as the update itself answered. *)
Theorem get_after_update (s : Store) (k : Z) (o : Order) (h h' : Headers)
    (m : gmap string Json) (st : OrderStatus) (b' : Json) :
  store_ok s →
  s !! k = Some o →
  is_staff h →
  m !! "status" = Some (JStr (status_value st)) →
  let after := app (mkRequest (PUT_orders_id k) h (JObj m)) s in
  (app (mkRequest (GET_orders_id k) h' b') after.1.1).2 = after.2 ∧
  after.2 = mkResponse 200
              (COrder (OrderOut.mk k (customer_email o) (item o) st)).
Proof.
  intros Hok Hk Hs Hm after. unfold after.
  rewrite (app_put_ok s k o h m st) by done. cbn [fst snd]. split; [|done].
  rewrite (app_get _ k) by done. rewrite lookup_insert_eq. cbn zeta.
  by rewrite (OrderOut_from_orm_ok s k o _ Hok Hk).
Qed.

(** X18: what an update payload must hold.  A body that is an object is
    accepted, with the status [st], exactly when its [status] key holds the
    value of [st] as a string, letter for letter. *)
Theorem OrderUpdate_accepts (m : gmap string Json) (st : OrderStatus) :
  OrderUpdate_validate (JObj m) = inr (OrderUpdate.mk st) ↔
  m !! "status" = Some (JStr (status_value st)).
Proof.
  split.
  - unfold OrderUpdate_validate.
    destruct (m !! "status") as [[| | |v| |]|] eqn:Hv; try done.
    destruct (status_of_value v) as [st'|] eqn:Hst; [|done].
    intros [= <-]. do 2 f_equal. by apply status_of_value_Some.
  - apply OrderUpdate_validate_ok.
Qed.

(** X19: an update with the role claim [staff] whose [status] key is
    missing or holds anything but one of the four values is answered 422
    with the one error [body, status], whether or not the order exists;
    nothing is written, logged or queued. *)
Theorem invalid_update_rejected (s : Store) (k : Z) (h : Headers)
    (m : gmap string Json) :
  is_staff h →
  (∀ st, m !! "status" ≠ Some (JStr (status_value st))) →
  app (mkRequest (PUT_orders_id k) h (JObj m)) s =
  (s, [Responded (mkResponse 422 (CErrors [["body"; "status"]]))],
   mkResponse 422 (CErrors [["body"; "status"]])).
Proof.
  intros Hs Hm. rewrite (app_put _ k) by done. cbn [headers body].
  rewrite decide_True by done.
  assert (OrderUpdate_validate (JObj m) = inl [["body"; "status"]]) as ->; [|done].
  unfold OrderUpdate_validate.
  destruct (m !! "status") as [[| | |v| |]|] eqn:Hv; try done.
  destruct (status_of_value v) as [st|] eqn:Hst; [|done].
  exfalso. apply (Hm st). do 2 f_equal. by apply status_of_value_Some.
Qed.

(** X20: validation reports every field at fault, not the first only.  A
    create with the role claim [staff] whose address is missing or not a
    valid address, and whose item is missing or not of 1 to 100 characters,
    is answered 422 with both errors, the address first. *)
Theorem both_fields_reported (s : Store) (h : Headers) (m : gmap string Json) :
  is_staff h →
  (m !! "customer_email" = None ∨
   ∃ e, m !! "customer_email" = Some (JStr e) ∧ validate_email e = None) →
  (m !! "item" = None ∨
   ∃ it, m !! "item" = Some (JStr it) ∧
         (String.length it = 0 ∨ 100 < String.length it)%nat) →
  app (mkRequest POST_orders h (JObj m)) s =
  (s,
   [Responded (mkResponse 422
                 (CErrors [["body"; "customer_email"]; ["body"; "item"]]))],
   mkResponse 422 (CErrors [["body"; "customer_email"]; ["body"; "item"]])).
Proof.
  intros Hs He Hi. rewrite app_post by done. cbn [headers body].
  rewrite decide_True by done.
  assert (OrderCreate_validate (JObj m) =
          inl [["body"; "customer_email"]; ["body"; "item"]]) as ->; [|done].
  unfold OrderCreate_validate.
  assert (validate_customer_email m = inl ["body"; "customer_email"]) as ->.
  { unfold validate_customer_email.
    destruct He as [->|(e & -> & ->)]; done. }
  assert (validate_item m = inl ["body"; "item"]) as ->; [|done].
  unfold validate_item. destruct Hi as [->|(it & -> & Hl)]; [done|].
  rewrite bool_decide_false; [done|lia].
Qed.

(** X21: a create or an update with the role claim [staff] whose body is
    null, a boolean, a number or a string is answered 422 with the one
    error [body]; nothing is written, logged or queued. *)
Theorem body_must_be_object (request : Request) (s : Store) :
  mutating (route request) = true →
  is_staff (headers request) →
  match body request with
  | JNull | JBool _ | JNum _ | JStr _ => True
  | JArr _ | JObj _ => False
  end →
  app request s =
  (s, [Responded (mkResponse 422 (CErrors [["body"]]))],
   mkResponse 422 (CErrors [["body"]])).
Proof.
  intros Hmut Hs Hb. destruct (route request) as [|k|k] eqn:Hr; [| |done].
  - rewrite app_post by done. rewrite decide_True by done.
    by destruct (body request).
  - rewrite (app_put _ k) by done. rewrite decide_True by done.
    by destruct (body request).
Qed.

(** X22: the gate goes by the first [X-User-Role] header and by its
    exact value.  When that header comes first in a create or an update
    and its value is not [staff], the request is refused with 403 whatever
    headers follow, a later [X-User-Role: staff] included; when its value
    is [staff] the gate lets the request through with that role and the
    answer is not 403. *)
Theorem first_role_header_decides (request : Request) (value : string)
    (h : Headers) (s : Store) :
  mutating (route request) = true →
  headers request = ("x-user-role", value) :: h →
  (value ≠ "staff" →
     staff_required request s =
       (s, [], inl (HTTPException 403 "Staff privileges required.")) ∧
     app request s =
       (s, [Responded (mkResponse 403 (CDetail "Staff privileges required."))],
        mkResponse 403 (CDetail "Staff privileges required."))) ∧
  (value = "staff" →
     staff_required request s = (s, [], inr "staff") ∧
     status_code (app request s).2 ≠ 403).
Proof.
  intros Hmut Hh.
  assert (Hstaff : is_staff (headers request) ↔ value = "staff").
  { rewrite Hh. unfold is_staff, headers_get, dict_get.
    change (lower "X-User-Role") with "x-user-role". cbn [List.find fst].
    rewrite bool_decide_true by done. cbn. split; congruence. }
  split; intros Hv.
  - assert (Hno : ¬ is_staff (headers request)) by (by rewrite Hstaff).
    split.
    + rewrite staff_required_run. by rewrite decide_False.
    + destruct (route request) as [|k|k] eqn:Hr; [| |done].
      * rewrite app_post by done. by rewrite decide_False.
      * rewrite (app_put _ k) by done. by rewrite decide_False.
  - assert (Hyes : is_staff (headers request)) by (by rewrite Hstaff).
    split.
    + rewrite staff_required_run. by rewrite decide_True.
    + destruct (route request) as [|k|k] eqn:Hr; [| |done].
      * rewrite app_post by done. rewrite decide_True by done.
        destruct (OrderCreate_validate (body request)); [done|].
        cbn zeta. by destruct (OrderOut_from_orm _).
      * rewrite (app_put _ k) by done. rewrite decide_True by done.
        destruct (OrderUpdate_validate (body request)); [done|].
        destruct (s !! k); [|done].
        cbn zeta. by destruct (OrderOut_from_orm _).
Qed.

(** X23: an order can be updated as soon as it is created.  After a
    create with the role claim [staff] and a valid payload on a well-formed
    table, an update of the returned id with the role claim [staff] and a
    status from the enum answers 200 with the address and item of the
    create and the new status. *)
Theorem update_after_create (s : Store) (h h' : Headers) (m mu : gmap string Json)
    (e e' it : string) (st : OrderStatus) :
  store_ok s →
  is_staff h →
  m !! "customer_email" = Some (JStr e) → validate_email e = Some e' →
  m !! "item" = Some (JStr it) → (1 ≤ String.length it ≤ 100)%nat →
  is_staff h' →
  mu !! "status" = Some (JStr (status_value st)) →
  let after := app (mkRequest POST_orders h (JObj m)) s in
  (app (mkRequest (PUT_orders_id (next_id s)) h' (JObj mu)) after.1.1).2 =
  mkResponse 200 (COrder (OrderOut.mk (next_id s) e' it st)).
Proof.
  intros Hok Hs He Hv Hi Hl Hs' Hmu after.
  assert (Hafter : after.1.1 =
                   <[next_id s := mkOrder (next_id s) e' it created]> s).
  { unfold after. rewrite app_post by done. cbn [headers body].
    rewrite decide_True by done.
    by rewrite (OrderCreate_validate_ok _ _ _ _ He Hv Hi Hl). }
  rewrite (app_put_ok after.1.1 (next_id s)
             (mkOrder (next_id s) e' it created) h' mu st); [done| | |done|done].
  - unfold after. eapply store_step_ok; [exact Hok|apply app_store_step].
  - rewrite Hafter. apply lookup_insert_eq.
Qed.

End Service.

(** ** The stand-in validation returns what it accepts *)

Lemma ascii_lower_at (c : ascii) :
  Ascii.eqb (ascii_lower c) "@" = Ascii.eqb c "@".
Proof. by destruct c as [[] [] [] [] [] [] [] []]. Qed.

Lemma ascii_lower_lower (c : ascii) : ascii_lower (ascii_lower c) = ascii_lower c.
Proof. by destruct c as [[] [] [] [] [] [] [] []]. Qed.

Lemma lower_lower (s : string) : lower (lower s) = lower s.
Proof. induction s as [|c s IH]; cbn; [done|]. by rewrite ascii_lower_lower, IH. Qed.

Lemma has_at_lower (s : string) : has_at (lower s) = has_at s.
Proof. induction s as [|c s IH]; cbn; [done|]. by rewrite ascii_lower_at, IH. Qed.

Lemma nonempty_lower (s : string) : nonempty (lower s) = nonempty s.
Proof. by destruct s. Qed.

Lemma split_at_String (c : ascii) (s : string) :
  split_at (String c s) =
  if Ascii.eqb c "@" then Some (EmptyString, s)
  else match split_at s with
       | Some (l, d) => Some (String c l, d)
       | None => None
       end.
Proof. reflexivity. Qed.

Lemma split_at_rebuild (s l d d' : string) :
  split_at s = Some (l, d) →
  split_at (String.append l (String "@" d')) = Some (l, d').
Proof.
  revert l. induction s as [|c s IH]; intros l; [done|].
  rewrite split_at_String. destruct (Ascii.eqb c "@") eqn:Hc.
  - by intros [= <- <-].
  - destruct (split_at s) as [[l0 d0]|]; [|done].
    intros [= <- <-].
    change (String.append (String c l0) (String "@" d'))
      with (String c (String.append l0 (String "@" d'))).
    by rewrite split_at_String, Hc, (IH l0).
Qed.

Lemma example_validate_email_stable (e e' : string) :
  example_validate_email e = Some e' → example_validate_email e' = Some e'.
Proof.
  unfold example_validate_email.
  destruct (split_at e) as [[l d]|] eqn:Hsplit; [|done].
  destruct (nonempty l && nonempty d && negb (has_at d)) eqn:Hok; [|done].
  intros [= <-]. rewrite (split_at_rebuild _ _ _ _ Hsplit).
  by rewrite nonempty_lower, has_at_lower, Hok, lower_lower.
Qed.

Lemma example_store_ok : store_ok example_validate_email example_store.
Proof.
  unfold example_store. intros k o [<- <-]%lookup_singleton_Some. by split.
Qed.

(** ** The claims on the worked examples *)

(** C1 on the first order of an empty table: the address comes back with
    its domain in lower case, under the id 1, from the create and from the
    get. *)
Lemma create_then_get_example :
  let out := OrderOut.mk (next_id ∅) "a@b.com" "Widget" created in
  let after :=
    app example_validate_email example_str
      (mkRequest POST_orders example_staff (JObj example_create_payload)) ∅ in
  after.2 = mkResponse 201 (COrder out) ∧
  OrderOut.status out = created ∧
  (app example_validate_email example_str
     (mkRequest (GET_orders_id (OrderOut.id out)) [] JNull) after.1.1).2
    = mkResponse 200 (COrder out).
Proof.
  apply (create_then_get example_validate_email example_str
           example_validate_email_stable ∅ example_staff [] example_create_payload
           "a@B.com" "a@b.com" "Widget" JNull).
  - reflexivity.
  - reflexivity.
  - reflexivity.
  - reflexivity.
  - cbn. lia.
Defined.

(** C2 on order 1, completed by an earlier request and then cancelled. *)
Lemma update_any_status_example :
  let earlier :=
    [ mkRequest (PUT_orders_id 1) example_staff
        (JObj {[ "status" := JStr "completed" ]}) ] in
  let now := run example_validate_email example_str earlier example_store in
  let after :=
    app example_validate_email example_str
      (mkRequest (PUT_orders_id 1) example_staff
         (JObj {[ "status" := JStr "cancelled" ]})) now in
  after.2 = mkResponse 200 (COrder (OrderOut.mk 1 "a@b.com" "Widget" cancelled)) ∧
  after.1.1 = <[1 := mkOrder 1 "a@b.com" "Widget" cancelled]> now.
Proof.
  apply (update_any_status example_validate_email example_str
           example_validate_email_stable example_store 1 example_order
           [ mkRequest (PUT_orders_id 1) example_staff
               (JObj {[ "status" := JStr "completed" ]}) ]
           example_staff {[ "status" := JStr "cancelled" ]} cancelled).
  - exact example_store_ok.
  - reflexivity.
  - reflexivity.
  - reflexivity.
Defined.



(** C4 on the update of order 1 to [processing]. *)
Lemma notification_dispatch_example :
  let request :=
    mkRequest (PUT_orders_id 1) example_staff (JObj example_update_payload) in
  let after := app example_validate_email example_str request example_store in
  ∃ o st,
    example_store !! 1 = Some o ∧
    OrderUpdate_validate (body request) = inr (OrderUpdate.mk st) ∧
    let t := send_email_task (customer_email o) (id o) st in
    after.1.2 =
      [Committed (set_status o st);
       Logged (audit_record "order_updated" (id o) "staff");
       Scheduled t;
       Responded after.2;
       Started t;
       Logged (notification_record example_str (customer_email o) (id o) st)] ∧
    scheduled after.1.2 = [t] ∧
    dispatched after.1.2 = [t].
Proof.
  apply (proj1 (proj2 (notification_dispatch example_validate_email example_str
           (call_task example_str)
           (mkRequest (PUT_orders_id 1) example_staff (JObj example_update_payload))
           example_store)) 1).
  - reflexivity.
  - reflexivity.
Defined.



(** C6, as the code has it, on order 2 of a table that holds order 1
    only. *)
Lemma missing_order_not_found_example :
  int64 2 ∧
  let r := mkResponse 404 (CDetail "Order not found.") in
  app example_validate_email example_str
    (mkRequest (PUT_orders_id 2) example_staff (JObj example_update_payload))
    example_store = (example_store, [Responded r], r) ∧
  app example_validate_email example_str
    (mkRequest (GET_orders_id 2) [] JNull) example_store
    = (example_store, [Responded r], r).
Proof.
  assert (Hk : int64 2) by (unfold int64; lia).
  pose proof (missing_order_not_found example_validate_email example_str
                example_store 2 example_staff [] example_update_payload
                processing JNull Hk) as (Hput & Hget & _).
  split; [exact Hk|]. split.
  - apply Hput; reflexivity.
  - apply Hget; reflexivity.
Defined.

(** The claim C6 as it is worded fails: an update of an order that does
    not exist, with the role claim [staff] and a status outside the enum,
    is answered 422, not 404. *)
Lemma update_missing_order_bad_status :
  let request :=
    mkRequest (PUT_orders_id 2) example_staff
      (JObj {[ "status" := JStr "shipped" ]}) in
  let resp := (app example_validate_email example_str request example_store).2 in
  example_store !! 2 = None ∧
  is_staff (headers request) ∧
  resp = mkResponse 422 (CErrors [["body"; "status"]]) ∧
  status_code resp ≠ 404.
Proof. by vm_compute. Qed.

(** The claim C7 as it is worded fails: the audit line of the first
    create of an empty table holds a message field whose value is the
    empty string; the field is emitted, empty, and not left out. *)
Lemma audit_line_has_empty_message :
  let after :=
    app example_validate_email example_str example_create_request ∅ in
  status_code after.2 = 201 ∧
  logged after.1.2 = [audit_record "order_created" 1 "staff"] ∧
  dict_get "message" (log_fields (audit_record "order_created" 1 "staff"))
    = Some (PStr "") ∧
  log_fields (audit_record "order_created" 1 "staff") =
    [ ("level", PStr "INFO"); ("message", PStr "");
      ("event", PStr "order_created"); ("order_id", PInt 1);
      ("user", PStr "staff") ].
Proof. by vm_compute. Qed.

(** C7, as the code has it, on the first create of an empty table and on
    the update of order 1. *)
Lemma audit_records_example :
  (∃ out,
     (app example_validate_email example_str
        (mkRequest POST_orders example_staff (JObj example_create_payload)) ∅).2
       = mkResponse 201 (COrder out) ∧
     headers_get "X-User-Role" example_staff = Some "staff" ∧
     logged (app example_validate_email example_str
               (mkRequest POST_orders example_staff
                  (JObj example_create_payload)) ∅).1.2
       = [audit_record "order_created" (OrderOut.id out) "staff"]) ∧
  (∃ out,
     (app example_validate_email example_str
        (mkRequest (PUT_orders_id 1) example_staff (JObj example_update_payload))
        example_store).2
       = mkResponse 200 (COrder out) ∧
     headers_get "X-User-Role" example_staff = Some "staff" ∧
     with_event "order_updated"
       (logged (app example_validate_email example_str
                  (mkRequest (PUT_orders_id 1) example_staff
                     (JObj example_update_payload)) example_store).1.2)
       = [audit_record "order_updated" (OrderOut.id out) "staff"]).
Proof.
  split.
  - apply (proj1 (audit_records example_validate_email example_str
                    (mkRequest POST_orders example_staff
                       (JObj example_create_payload)) ∅));
      reflexivity.
  - apply (proj1 (proj2 (audit_records example_validate_email example_str
                    (mkRequest (PUT_orders_id 1) example_staff
                       (JObj example_update_payload)) example_store)) 1);
      reflexivity.
Defined.


(** C10 on a payload that also names an id and a status: the order gets
    the id 2 after order 1, and the status [created]. *)
Lemma create_ignores_other_fields_example :
  let m' : gmap string Json :=
    <["id" := JNum 99]> (<["status" := JStr "completed"]> example_create_payload) in
  app example_validate_email example_str
    (mkRequest POST_orders example_staff (JObj m')) example_store =
  app example_validate_email example_str
    (mkRequest POST_orders example_staff (JObj example_create_payload))
    example_store ∧
  (app example_validate_email example_str
     (mkRequest POST_orders example_staff (JObj m')) example_store).2 =
  mkResponse 201 (COrder (OrderOut.mk 2 "a@b.com" "Widget" created)).
Proof.
  split.
  - apply (proj1 (create_ignores_other_fields example_validate_email example_str
                    example_store example_staff example_create_payload
                    (<["id" := JNum 99]>
                       (<["status" := JStr "completed"]> example_create_payload))));
      reflexivity.
  - reflexivity.
Defined.

Lemma example_store2_ok : store_ok example_validate_email example_store2.
Proof.
  unfold example_store2. intros k o.
  rewrite lookup_insert. case_decide.
  - intros [= <-]. by subst.
  - intros [<- <-]%lookup_singleton_Some. by split.
Qed.

(** ** The further properties on the worked examples *)

(** X1 on a create and an update from the empty table. *)
Lemma requests_keep_store_ok_example :
  store_ok example_validate_email
    (run example_validate_email example_str
       [example_create_request; example_update_request 1 completed] ∅).
Proof.
  apply (requests_keep_store_ok example_validate_email example_str
           example_validate_email_stable).
  apply store_ok_empty.
Defined.

(** X2 on order 1, across an update and a create. *)
Lemma orders_persist_example :
  ∃ o', run example_validate_email example_str
          [example_update_request 1 completed; example_create_request]
          example_store !! 1 = Some o' ∧
        id o' = 1 ∧ customer_email o' = "a@b.com" ∧ item o' = "Widget".
Proof.
  apply (orders_persist example_validate_email example_str
           example_validate_email_stable
           [example_update_request 1 completed; example_create_request]
           example_store 1 example_order).
  - exact example_store_ok.
  - reflexivity.
Defined.

(** X4 on an update of order 1 in a table of two orders. *)
Lemma update_touches_one_row_example :
  (∀ k', k' ≠ 1 →
     (app example_validate_email example_str
        (example_update_request 1 cancelled) example_store2).1.1 !! k'
       = example_store2 !! k') ∧
  dom (app example_validate_email example_str
         (example_update_request 1 cancelled) example_store2).1.1
    = dom example_store2.
Proof.
  apply (update_touches_one_row example_validate_email example_str
           (example_update_request 1 cancelled) 1 example_store2).
  - exact example_store2_ok.
  - reflexivity.
Defined.

(** X5 on a create in a table of two orders. *)
Lemma create_adds_one_row_example :
  (∀ k, is_Some (example_store2 !! k) →
     (app example_validate_email example_str example_create_request
        example_store2).1.1 !! k = example_store2 !! k) ∧
  dom (app example_validate_email example_str example_create_request
         example_store2).1.1 ⊆ {[next_id example_store2]} ∪ dom example_store2 ∧
  (status_code (app example_validate_email example_str example_create_request
                  example_store2).2 = 201 →
     dom (app example_validate_email example_str example_create_request
            example_store2).1.1 = {[next_id example_store2]} ∪ dom example_store2 ∧
     size (app example_validate_email example_str example_create_request
             example_store2).1.1 = S (size example_store2)).
Proof.
  apply (create_adds_one_row example_validate_email example_str
           example_create_request example_store2).
  reflexivity.
Defined.

(** X6 on a get of order 2 in a table that holds order 1 only. *)
Lemma client_errors_change_nothing_example :
  app example_validate_email example_str (example_get_request 2) example_store =
  (example_store,
   [Responded (app example_validate_email example_str (example_get_request 2)
                 example_store).2],
   (app example_validate_email example_str (example_get_request 2)
      example_store).2).
Proof.
  apply (client_errors_change_nothing example_validate_email example_str
           (example_get_request 2) example_store).
  right. left. reflexivity.
Defined.

(** X9 on order 7, whose address has no [@]. *)
Lemma update_of_unvalidated_address_example :
  let after :=
    app example_validate_email example_str (example_update_request 7 processing)
      example_foreign_store in
  let t := send_email_task "nobody" 7 processing in
  after =
    (<[7 := mkOrder 7 "nobody" "Lamp" processing]> example_foreign_store,
     [Committed (mkOrder 7 "nobody" "Lamp" processing);
      Logged (audit_record "order_updated" 7 "staff");
      Scheduled t;
      Responded (mkResponse 500 (CText "Internal Server Error"))],
     mkResponse 500 (CText "Internal Server Error")) ∧
  dispatched after.1.2 = [].
Proof.
  apply (update_of_unvalidated_address example_validate_email example_str
           example_foreign_store 7 (mkOrder 7 "nobody" "Lamp" created)
           example_staff {[ "status" := JStr "processing" ]} processing);
    reflexivity.
Defined.

(** X11 on the record of the first create of an empty table. *)
Lemma audit_follows_commit_example :
  ∃ o, o ∈ committed (app example_validate_email example_str
                        example_create_request ∅).1.2 ∧
       getattr (audit_record "order_created" 1 "staff") "order_id"
         = Some (PInt (id o)) ∧
       getattr (audit_record "order_created" 1 "staff") "user"
         = Some (PStr "staff").
Proof.
  apply (audit_follows_commit example_validate_email example_str
           example_create_request ∅ (audit_record "order_created" 1 "staff")).
  - vm_compute. constructor.
  - vm_compute. eauto.
Defined.

(** X13 on an update of order 1: the committed row is the one the table
    holds. *)
Lemma table_changes_by_commit_example :
  (app example_validate_email example_str (example_update_request 1 completed)
     example_store).1.1 !! id (mkOrder 1 "a@b.com" "Widget" completed)
    = Some (mkOrder 1 "a@b.com" "Widget" completed) ∧
  (app example_validate_email example_str (example_get_request 1)
     example_store).1.1 = example_store.
Proof.
  split.
  - apply (proj1 (proj2 (table_changes_by_commit example_validate_email
                           example_str (example_update_request 1 completed)
                           example_store))).
    vm_compute. constructor.
  - apply (proj2 (proj2 (table_changes_by_commit example_validate_email
                           example_str (example_get_request 1) example_store))).
    reflexivity.
Defined.

(** X15 on order 1, completed and then cancelled. *)
Lemma last_update_wins_example :
  app example_validate_email example_str (example_update_request 1 cancelled)
    (app example_validate_email example_str (example_update_request 1 completed)
       example_store).1.1 =
  app example_validate_email example_str (example_update_request 1 cancelled)
    example_store.
Proof.
  apply (last_update_wins example_validate_email example_str example_store 1
           example_order example_staff example_staff
           {[ "status" := JStr "completed" ]} {[ "status" := JStr "cancelled" ]}
           completed cancelled).
  - exact example_store_ok.
  - reflexivity.
  - reflexivity.
  - reflexivity.
  - reflexivity.
  - reflexivity.
Defined.

(** X16 on orders 1 and 2. *)
Lemma updates_commute_example :
  let r1 := example_update_request 1 completed in
  let r2 := example_update_request 2 cancelled in
  (app example_validate_email example_str r2
     (app example_validate_email example_str r1 example_store2).1.1).1.1 =
  (app example_validate_email example_str r1
     (app example_validate_email example_str r2 example_store2).1.1).1.1 ∧
  (app example_validate_email example_str r2
     (app example_validate_email example_str r1 example_store2).1.1).2 =
  (app example_validate_email example_str r2 example_store2).2 ∧
  (app example_validate_email example_str r1
     (app example_validate_email example_str r2 example_store2).1.1).2 =
  (app example_validate_email example_str r1 example_store2).2.
Proof.
  apply (updates_commute example_validate_email example_str example_store2 1 2
           example_order example_order2 example_staff example_staff
           {[ "status" := JStr "completed" ]} {[ "status" := JStr "cancelled" ]}
           completed cancelled).
  - exact example_store2_ok.
  - lia.
  - reflexivity.
  - reflexivity.
  - reflexivity.
  - reflexivity.
  - reflexivity.
  - reflexivity.
Defined.

(** X17 on order 1, set to [processing] and read back. *)
Lemma get_after_update_example :
  let after :=
    app example_validate_email example_str (example_update_request 1 processing)
      example_store in
  (app example_validate_email example_str (example_get_request 1) after.1.1).2
    = after.2 ∧
  after.2 = mkResponse 200
              (COrder (OrderOut.mk 1 "a@b.com" "Widget" processing)).
Proof.
  apply (get_after_update example_validate_email example_str example_store 1
           example_order example_staff [] {[ "status" := JStr "processing" ]}
           processing JNull).
  - exact example_store_ok.
  - reflexivity.
  - reflexivity.
  - reflexivity.
Defined.

(** X18 on the payload [{"status": "processing"}]. *)
Lemma OrderUpdate_accepts_example :
  example_update_payload !! "status" = Some (JStr (status_value processing)).
Proof.
  apply (proj1 (OrderUpdate_accepts example_update_payload processing)).
  reflexivity.
Defined.

(** X19 on the status [shipped], for an order that does not exist. *)
Lemma invalid_update_rejected_example :
  app example_validate_email example_str
    (mkRequest (PUT_orders_id 2) example_staff
       (JObj {[ "status" := JStr "shipped" ]})) example_store =
  (example_store,
   [Responded (mkResponse 422 (CErrors [["body"; "status"]]))],
   mkResponse 422 (CErrors [["body"; "status"]])).
Proof.
  apply (invalid_update_rejected example_validate_email example_str
           example_store 2 example_staff {[ "status" := JStr "shipped" ]}).
  - reflexivity.
  - intros st. destruct st; vm_compute; discriminate.
Defined.

(** X20 on the empty object. *)
Lemma both_fields_reported_example :
  app example_validate_email example_str
    (mkRequest POST_orders example_staff (JObj ∅)) example_store =
  (example_store,
   [Responded (mkResponse 422
                 (CErrors [["body"; "customer_email"]; ["body"; "item"]]))],
   mkResponse 422 (CErrors [["body"; "customer_email"]; ["body"; "item"]])).
Proof.
  apply (both_fields_reported example_validate_email example_str example_store
           example_staff ∅).
  - reflexivity.
  - left. reflexivity.
  - left. reflexivity.
Defined.

(** X21 on a create whose body is [null]. *)
Lemma body_must_be_object_example :
  app example_validate_email example_str
    (mkRequest POST_orders example_staff JNull) example_store =
  (example_store, [Responded (mkResponse 422 (CErrors [["body"]]))],
   mkResponse 422 (CErrors [["body"]])).
Proof.
  apply (body_must_be_object example_validate_email example_str
           (mkRequest POST_orders example_staff JNull) example_store).
  - reflexivity.
  - reflexivity.
  - exact I.
Defined.

(** X22 on an update with two role headers: the first, [guest],
    decides. *)
Lemma first_role_header_decides_example :
  app example_validate_email example_str
    (mkRequest (PUT_orders_id 1)
       [("x-user-role", "guest"); ("x-user-role", "staff")]
       (JObj example_update_payload)) example_store =
  (example_store,
   [Responded (mkResponse 403 (CDetail "Staff privileges required."))],
   mkResponse 403 (CDetail "Staff privileges required.")).
Proof.
  apply (proj1 (first_role_header_decides example_validate_email example_str
                  (mkRequest (PUT_orders_id 1)
                     [("x-user-role", "guest"); ("x-user-role", "staff")]
                     (JObj example_update_payload))
                  "guest" [("x-user-role", "staff")] example_store
                  eq_refl eq_refl)).
  discriminate.
Defined.

(** X23 on a create in a table that holds order 1, and an update of the
    new order 2. *)
Lemma update_after_create_example :
  (app example_validate_email example_str
     (mkRequest (PUT_orders_id (next_id example_store)) example_staff
        (JObj {[ "status" := JStr "completed" ]}))
     (app example_validate_email example_str example_create_request
        example_store).1.1).2 =
  mkResponse 200
    (COrder (OrderOut.mk (next_id example_store) "a@b.com" "Widget" completed)).
Proof.
  apply (update_after_create example_validate_email example_str
           example_validate_email_stable example_store example_staff
           example_staff example_create_payload
           {[ "status" := JStr "completed" ]} "a@B.com" "a@b.com" "Widget"
           completed);
    try reflexivity; [exact example_store_ok | cbn; lia].
Defined.
